(** * ethdrain: chunked ingestion of Ethereum blocks into Elasticsearch

    A shallow embedding of [ethdrain.py] and the properties of its
    partitioner ([chunks]), its normalizer ([process_block]), its fetcher
    ([fetch], [sema_fetch], [run]), its committer ([setup_process]) and of
    the parsing of the block-number input file.

    Conventions of the embedding:
    - Python [int] is [Z]; Python [float] is IEEE 754 binary64, taken from
      [SpecFloat] with precision 53 and maximal exponent 1024;
    - Python [str] is [string]; the model covers ASCII text (a byte above
      127 is neither a digit nor white space here), and [int] parses as
      CPython 3.6 and later do, underscores between digits included;
    - a JSON document decoded by [response.json()] is a tree: no two places
      of it share an object, so the in-place updates of [process_block] are
      written as functional updates of [gmap]s;
    - exceptions are the left summand of a sum type; code that mutates the
      [actions] list threads it explicitly and returns it also when it
      raises, as the list keeps what was appended before the exception. *)

From Stdlib Require Import ZArith List String Ascii Bool Lia.
From Stdlib Require Import SpecFloat DecimalString.
From stdpp Require Import gmap strings list fin_maps.

Local Set Warnings "-register-all".
Local Open Scope string_scope.
Local Open Scope list_scope.
Local Open Scope Z_scope.

(** ** Exceptions *)

Inductive exn :=
| KeyError (key : string)
| TypeError
| ValueError
| OverflowError
| ClientError (msg : string)      (* aiohttp.ClientError *)
| TimeoutError (msg : string)     (* asyncio.TimeoutError *)
| BulkIndexError (msg : string)   (* elasticsearch.helpers.BulkIndexError *)
| OtherError (msg : string).

Definition result (A : Type) : Type := exn + A.

Definition rbind {A B} (r : result A) (k : A -> result B) : result B :=
  match r with
  | inl e => inl e
  | inr a => k a
  end.

Declare Scope result_scope.
Delimit Scope result_scope with result.
Notation "'try' x <- r ; k" := (rbind r (fun x => k))
  (at level 10, x name, r at level 100, k at level 200) : result_scope.

(** ** Floats: binary64 *)

Module Float.

Definition prec : Z := 53.
Definition emax : Z := 1024.

Definition float := spec_float.

(** [float(n)] for an [int] n: correctly rounded, [OverflowError] when the
    rounded value is not finite. *)
Definition of_int (n : Z) : result float :=
  match binary_normalize prec emax n 0 false with
  | S754_infinity _ => inl OverflowError
  | f => inr f
  end.

Definition add (x y : float) : float := SFadd prec emax x y.
Definition div (x y : float) : float := SFdiv prec emax x y.

(** The literal [1.0]. *)
Definition one : float := S754_finite false 4503599627370496 (-52).

End Float.

Import Float(float).

(** [WEI_ETH_FACTOR = 1000000000000000000.0]: 10^18 = 5^18 * 2^18 and
    5^18 < 2^53, so the literal denotes 10^18 exactly. *)
Definition WEI_ETH_FACTOR : float :=
  Eval vm_compute in binary_normalize Float.prec Float.emax (10 ^ 18) 0 false.

Definition TX_INDEX_NAME : string := "ethereum-transaction".
Definition B_INDEX_NAME : string := "ethereum-block".
Definition SEM_SIZE : nat := 256.
Definition CHUNK_SIZE : Z := 250.

(** ** [int(s, base)] on a [str]

    CPython's [PyLong_FromString], reached from [int(x, 0)] and [int(x)]:
    white space, an optional sign, for base 0 a prefix [0x], [0o] or [0b]
    (a number starting with 0 and no such prefix must be zero), digits with
    single underscores between them, white space. *)

Module PyLong.

(** [Py_ISSPACE], the white space that the parser skips in ASCII text:
    9..13 and 32. *)
Definition is_space (c : ascii) : bool :=
  let n := Z.of_nat (nat_of_ascii c) in
  ((9 <=? n) && (n <=? 13)) || (n =? 32).

(** [_PyLong_DigitValue]: the value of a digit, letters count from 10. *)
Definition digit_value (c : ascii) : option Z :=
  let n := Z.of_nat (nat_of_ascii c) in
  if (48 <=? n) && (n <=? 57) then Some (n - 48)
  else if (97 <=? n) && (n <=? 122) then Some (n - 87)
  else if (65 <=? n) && (n <=? 90) then Some (n - 55)
  else None.

Fixpoint skip_spaces (s : string) : string :=
  match s with
  | String c s' => if is_space c then skip_spaces s' else s
  | EmptyString => s
  end.

Definition underscore : ascii := "_"%char.

(** The digit loop: [acc] is the value so far, [ndigits] the number of
    digits read, [prev_us] whether the previous character was an
    underscore. Stops at the first character that is neither a digit of
    the base nor an underscore; [None] on a doubled or trailing
    underscore. *)
Fixpoint scan_digits (base : Z) (s : string) (acc : Z) (ndigits : nat)
    (prev_us : bool) : option (Z * nat * string) :=
  match s with
  | EmptyString => if prev_us then None else Some (acc, ndigits, s)
  | String c s' =>
      if Ascii.eqb c underscore then
        if prev_us then None else scan_digits base s' acc ndigits true
      else
        match digit_value c with
        | Some d =>
            if d <? base then scan_digits base s' (acc * base + d) (S ndigits) false
            else if prev_us then None else Some (acc, ndigits, s)
        | None => if prev_us then None else Some (acc, ndigits, s)
        end
  end.

Definition is_char (s : string) (i : nat) (lower upper : ascii) : bool :=
  match String.get i s with
  | Some c => Ascii.eqb c lower || Ascii.eqb c upper
  | None => false
  end.

Definition drop (n : nat) (s : string) : string :=
  String.substring n (String.length s - n) s.

(** [base] is 0 or in 2..36, as [int] checks before it parses. *)
Definition from_string (s : string) (base : Z) : option Z :=
  let s := skip_spaces s in
  let '(negative, s) :=
    match s with
    | String "+"%char s' => (false, s')
    | String "-"%char s' => (true, s')
    | _ => (false, s)
    end in
  let zero_first := is_char s 0 "0"%char "0"%char in
  let '(base, error_if_nonzero) :=
    if base =? 0 then
      if negb zero_first then (10, false)
      else if is_char s 1 "x"%char "X"%char then (16, false)
      else if is_char s 1 "o"%char "O"%char then (8, false)
      else if is_char s 1 "b"%char "B"%char then (2, false)
      else (10, true)
    else (base, false) in
  let s :=
    if zero_first &&
       (((base =? 16) && is_char s 1 "x"%char "X"%char) ||
        ((base =? 8) && is_char s 1 "o"%char "O"%char) ||
        ((base =? 2) && is_char s 1 "b"%char "B"%char))
    then
      let s := drop 2 s in
      if is_char s 0 underscore underscore then drop 1 s else s
    else s in
  if is_char s 0 underscore underscore then None
  else
    match scan_digits base s 0 0 false with
    | None => None
    | Some (z, ndigits, rest) =>
        if error_if_nonzero && negb (z =? 0) then None
        else if Nat.eqb ndigits 0 then None
        else
          match skip_spaces rest with
          | EmptyString => Some (if negative then - z else z)
          | String _ _ => None
          end
    end.

End PyLong.

(** ** [range] and slicing *)

(** The length of [range(start, stop, step)], for [step <> 0]. *)
Definition range_length (start stop step : Z) : Z :=
  if 0 <? step then
    if start <? stop then (stop - start - 1) / step + 1 else 0
  else
    if stop <? start then (start - stop - 1) / (- step) + 1 else 0.

(** [range(start, stop, step)]: [ValueError] for a zero step. *)
Definition py_range (start stop step : Z) : result (list Z) :=
  if step =? 0 then inl ValueError
  else inr (map (fun k : nat => start + Z.of_nat k * step)
                (seq 0 (Z.to_nat (range_length start stop step)))).

(** A slice bound: a negative one counts from the end; both are clipped to
    the list. *)
Definition slice_index {A} (lst : list A) (i : Z) : Z :=
  let len := Z.of_nat (length lst) in
  if i <? 0 then Z.max (i + len) 0 else Z.min i len.

(** [lst[i:j]] *)
Definition py_slice {A} (lst : list A) (i j : Z) : list A :=
  let lo := slice_index lst i in
  let hi := slice_index lst j in
  take (Z.to_nat (hi - lo)) (drop (Z.to_nat lo) lst).

(** [chunks(lst, nb_chunks)], as the list the generator yields when it is
    run to its end, as [list(chunks(block_list, CHUNK_SIZE))] does before
    any chunk is dispatched. *)
Definition chunks {A} (lst : list A) (nb_chunks : Z) : result (list (list A)) :=
  (try starts <- py_range 0 (Z.of_nat (length lst)) nb_chunks;
   inr (map (fun i => py_slice lst i (i + nb_chunks)) starts))%result.

(** ** Python values

    What [response.json()] can return, and the [datetime] that
    [process_block] stores in the documents. A dict is a [gmap]: no claim
    depends on the order of its keys. *)

(** [datetime.datetime.fromtimestamp(n)], kept as the POSIX seconds it was
    built from. *)
Record datetime := Datetime { posix : Z }.

Inductive pyval :=
| PNone
| PBool (b : bool)
| PInt (n : Z)
| PFloat (f : float)
| PStr (s : string)
| PList (l : list pyval)
| PDict (d : gmap string pyval)
| PDatetime (t : datetime).

(** The years 1 to 9999 that [datetime] can hold, as seconds since the
    epoch. The local zone is taken to be UTC; a time outside the range
    raises. *)
Definition MIN_TIMESTAMP : Z := -62135596800.
Definition MAX_TIMESTAMP : Z := 253402300799.

Definition fromtimestamp (n : Z) : result datetime :=
  if (MIN_TIMESTAMP <=? n) && (n <=? MAX_TIMESTAMP) then inr (Datetime n)
  else inl ValueError.

(** [v[k]] for a [str] key k: only a dict can be subscripted so. *)
Definition py_getitem (v : pyval) (k : string) : result pyval :=
  match v with
  | PDict d =>
      match d !! k with
      | Some x => inr x
      | None => inl (KeyError k)
      end
  | _ => inl TypeError
  end.

(** [v[k] = x] for a [str] key k. *)
Definition py_setitem (v : pyval) (k : string) (x : pyval) : result pyval :=
  match v with
  | PDict d => inr (PDict (<[k := x]> d))
  | _ => inl TypeError
  end.

(** [int(v, 0)]: [TypeError] unless v is a [str], [ValueError] when the
    text is no literal. *)
Definition py_int0 (v : pyval) : result Z :=
  match v with
  | PStr s =>
      match PyLong.from_string s 0 with
      | Some n => inr n
      | None => inl ValueError
      end
  | _ => inl TypeError
  end.

(** What [for tx in v] iterates over: the items of a list, the characters
    of a str, the keys of a dict. *)
Definition py_iter (v : pyval) : result (list pyval) :=
  match v with
  | PList l => inr l
  | PStr s => inr (map (fun c => PStr (String c EmptyString)) (list_ascii_of_string s))
  | PDict d => inr (map (fun kv => PStr (fst kv)) (map_to_list d))
  | _ => inl TypeError
  end.

(** [n / f] for an [int] n and a [float] f that is not zero. *)
Definition py_truediv (n : Z) (f : float) : result float :=
  (try x <- Float.of_int n; inr (Float.div x f))%result.

(** [tx_value_sum] is the [int] 0 until the first transaction and a
    [float] from then on. *)
Inductive pynumber :=
| NInt (n : Z)
| NFloat (f : float).

Definition number_val (n : pynumber) : pyval :=
  match n with
  | NInt z => PInt z
  | NFloat f => PFloat f
  end.

(** [acc + x] for a [float] x. *)
Definition py_add (acc : pynumber) (x : float) : result pynumber :=
  match acc with
  | NInt z => (try a <- Float.of_int z; inr (NFloat (Float.add a x)))%result
  | NFloat a => inr (NFloat (Float.add a x))
  end.

(** [str(n)] for an [int] n. *)
Definition str_int (n : Z) : string := NilZero.string_of_int (Z.to_int n).

(** ** Index actions

    The two dict literals that [process_block] appends to [actions]:
    a transaction document under its hash, a block document under its
    number. *)

Inductive action :=
| TxAction (id : pyval) (source : pyval)
| BlockAction (id : Z) (source : pyval).

Definition _index (a : action) : string :=
  match a with
  | TxAction _ _ => TX_INDEX_NAME
  | BlockAction _ _ => B_INDEX_NAME
  end.

Definition _type (a : action) : string :=
  match a with
  | TxAction _ _ => "tx"
  | BlockAction _ _ => "b"
  end.

Definition _source (a : action) : pyval :=
  match a with
  | TxAction _ d => d
  | BlockAction _ d => d
  end.

(** ** [process_block] *)

(** The variables of the loop over the transactions. *)
Record loop_state := LoopState {
  tx_hashes : list pyval;
  tx_value_sum : pynumber;
  actions : list action
}.

(** One turn of the loop [for tx in transactions]. Every operation that can
    raise comes before [actions.append]. *)
Definition process_tx (block_timestamp : datetime) (tx : pyval) (s : loop_state)
    : result loop_state :=
  (try raw_number <- py_getitem tx "blockNumber";
   try number <- py_int0 raw_number;
   try tx <- py_setitem tx "blockNumber" (PInt number);
   try tx <- py_setitem tx "blockTimestamp" (PDatetime block_timestamp);
   try raw_value <- py_getitem tx "value";
   try wei <- py_int0 raw_value;
   try value <- py_truediv wei WEI_ETH_FACTOR;
   try tx <- py_setitem tx "value" (PFloat value);
   try sum <- py_add (tx_value_sum s) value;
   try hash <- py_getitem tx "hash";
   inr {| tx_hashes := tx_hashes s ++ [hash];
          tx_value_sum := sum;
          actions := actions s ++ [TxAction hash tx] |})%result.

(** The loop; with the outcome comes the [actions] list as the loop left
    it. *)
Fixpoint process_txs (block_timestamp : datetime) (txs : list pyval) (s : loop_state)
    : result loop_state * list action :=
  match txs with
  | [] => (inr s, actions s)
  | tx :: txs' =>
      match process_tx block_timestamp tx s with
      | inl e => (inl e, actions s)
      | inr s' => process_txs block_timestamp txs' s'
      end
  end.

(** The statements before the loop. *)
Definition block_header (response : pyval) : result (pyval * list pyval * Z * datetime) :=
  (try block <- py_getitem response "result";
   try transactions <- py_getitem block "transactions";
   try raw_number <- py_getitem block "number";
   try block_nb <- py_int0 raw_number;
   try raw_timestamp <- py_getitem block "timestamp";
   try timestamp <- py_int0 raw_timestamp;
   try block_timestamp <- fromtimestamp timestamp;
   try txs <- py_iter transactions;
   inr (block, txs, block_nb, block_timestamp))%result.

(** The statements after the loop, up to the block document. *)
Definition block_document (block : pyval) (block_nb : Z) (block_timestamp : datetime)
    (s : loop_state) : result pyval :=
  (try block <- py_setitem block "transactions" (PList (tx_hashes s));
   try block <- py_setitem block "number" (PInt block_nb);
   try block <- py_setitem block "timestamp" (PDatetime block_timestamp);
   try raw_gas_limit <- py_getitem block "gasLimit";
   try gas_limit <- py_int0 raw_gas_limit;
   try block <- py_setitem block "gasLimit" (PInt gas_limit);
   try raw_gas_used <- py_getitem block "gasUsed";
   try gas_used <- py_int0 raw_gas_used;
   try block <- py_setitem block "gasUsed" (PInt gas_used);
   try raw_size <- py_getitem block "size";
   try size <- py_int0 raw_size;
   try block <- py_setitem block "size" (PInt size);
   try block <- py_setitem block "transactionCount"
                  (PInt (Z.of_nat (length (tx_hashes s))));
   py_setitem block "txValueSum" (number_val (tx_value_sum s)))%result.

Definition process_block (block : pyval) (actions : list action)
    : result unit * list action :=
  match block_header block with
  | inl e => (inl e, actions)
  | inr (block, txs, block_nb, block_timestamp) =>
      match process_txs block_timestamp txs
              {| tx_hashes := []; tx_value_sum := NInt 0; actions := actions |} with
      | (inl e, actions) => (inl e, actions)
      | (inr s, actions) =>
          match block_document block block_nb block_timestamp s with
          | inl e => (inl e, actions)
          | inr doc => (inr tt, actions ++ [BlockAction block_nb doc])
          end
      end
  end.

(** ** Predicates of the specification *)

(** The accumulator of the loop after [+=] of each of [values] in turn,
    from [acc]: the code's own [py_add], used to follow the loop. *)
Fixpoint sum_from (acc : pynumber) (values : list float) : result pynumber :=
  match values with
  | [] => inr acc
  | v :: values' => (try acc' <- py_add acc v; sum_from acc' values')%result
  end.

(** The sum of [values] in binary64, taken from left to right from 0.0
    with the addition of IEEE 754 as the standard library defines it. *)
Definition binary64_sum (values : list float) : float :=
  fold_left (SFadd 53 1024) values (S754_zero false).

(** What the sum of the values of a block is in Python: the [int] 0 when
    there is no value, the binary64 sum otherwise. *)
Definition sum_of_values (values : list float) : pyval :=
  match values with
  | [] => PInt 0
  | _ :: _ => PFloat (binary64_sum values)
  end.

(** One transaction as [process_block] leaves it: the [_id] and [_source]
    of its action, and the [float] stored under [value]. *)
Record tx_output := TxOutput {
  out_hash : pyval;
  out_document : pyval;
  out_value : float
}.

Definition tx_action (o : tx_output) : action := TxAction (out_hash o) (out_document o).

(** The document [o] is the raw transaction [tx] normalized under the
    block time [block_timestamp]: [blockNumber] is the transaction's own
    field parsed by [int(_, 0)], [blockTimestamp] is the block time,
    [value] is the parsed field divided by [WEI_ETH_FACTOR]. *)
Definition tx_normalized (block_timestamp : datetime) (tx : pyval) (o : tx_output) : Prop :=
  exists (raw_number raw_value : pyval) (number wei : Z),
    py_getitem tx "blockNumber" = inr raw_number /\
    py_int0 raw_number = inr number /\
    py_getitem tx "value" = inr raw_value /\
    py_int0 raw_value = inr wei /\
    py_truediv wei WEI_ETH_FACTOR = inr (out_value o) /\
    py_getitem tx "hash" = inr (out_hash o) /\
    py_getitem (out_document o) "hash" = inr (out_hash o) /\
    py_getitem (out_document o) "blockNumber" = inr (PInt number) /\
    py_getitem (out_document o) "blockTimestamp" = inr (PDatetime block_timestamp) /\
    py_getitem (out_document o) "value" = inr (PFloat (out_value o)).

(** The exceptions that the [except] clause of [fetch] names. *)
Definition is_network_error (e : exn) : bool :=
  match e with
  | ClientError _ | TimeoutError _ => true
  | _ => false
  end.

(** ** The fetcher: [fetch], [sema_fetch], [run] *)

(** What one worker process can be observed to do: the list [out_actions]
    that [process_block] fills, the lines written to [error_blocks.log]
    through [logging.error], the lines printed, and the action lists handed
    to [helpers.bulk]. *)
Record worker := Worker {
  out_actions : list action;
  error_log : list string;
  stdout : list string;
  bulk_calls : list (list action)
}.

Definition new_worker : worker :=
  {| out_actions := []; error_log := []; stdout := []; bulk_calls := [] |}.

Definition newline : string := String "010"%char EmptyString.

(** What the network does to one request: [session.post] followed by
    [response.json()] hands back a decoded document, or one of the two
    raises. *)
Inductive post_outcome :=
| Response (body : pyval)
| Raises (e : exn).

Definition process_fn_type : Type := pyval -> list action -> result unit * list action.

(** [fetch(url, session, block, process_fn, actions)], once the network has
    answered the request with [o]. The [except] clause names
    [aiohttp.ClientError] and [asyncio.TimeoutError] and nothing else. *)
Definition fetch (o : post_outcome) (block : Z) (process_fn : process_fn_type)
    (w : worker) : result unit * worker :=
  let '(r, acts) :=
    match o with
    | Response body => process_fn body (out_actions w)
    | Raises e => (inl e, out_actions w)
    end in
  let w := {| out_actions := acts; error_log := error_log w;
              stdout := stdout w; bulk_calls := bulk_calls w |} in
  match r with
  | inl (ClientError msg) | inl (TimeoutError msg) =>
      (inr tt,
       {| out_actions := out_actions w;
          error_log := error_log w ++ ["block: " +:+ str_int block];
          stdout := stdout w ++
            ["Issue with block " +:+ str_int block +:+ ":" +:+ newline +:+ msg +:+ newline];
          bulk_calls := bulk_calls w |})
  | _ => (r, w)
  end.

(** A task made by [ensure_future(sema_fetch(...))]: it waits for the
    semaphore, then holds one slot while its request is out, then is done
    with the outcome of [fetch]. *)
Inductive task_state :=
| Waiting
| InFlight
| Finished (r : result unit).

(** The state of [run]: the counter of [sem], the tasks in the order of
    [block_range], the worker, and the first exception that a task handed
    to [gather], which [run] raises. *)
Record run_state := RunState {
  sem_value : nat;
  tasks : list (Z * task_state);
  run_worker : worker;
  raised : option exn
}.

Definition init_run (sem_size : nat) (block_range : list Z) (w : worker) : run_state :=
  {| sem_value := sem_size;
     tasks := map (fun b => (b, Waiting)) block_range;
     run_worker := w;
     raised := None |}.

(** What the event loop does next: task [i] enters [async with sem], or the
    request of task [i] comes back with [o] and the task runs to its end. *)
Inductive event :=
| Acquire (i : nat)
| Complete (i : nat) (o : post_outcome).

(** [sem.acquire()] goes through only while the counter is positive. *)
Definition sem_acquire (st : run_state) : option run_state :=
  match sem_value st with
  | O => None
  | S n => Some {| sem_value := n; tasks := tasks st;
                   run_worker := run_worker st; raised := raised st |}
  end.

(** [sem.release()], which [async with] runs on every way out of its
    body. *)
Definition sem_release (st : run_state) : run_state :=
  {| sem_value := S (sem_value st); tasks := tasks st;
     run_worker := run_worker st; raised := raised st |}.

Definition set_task (i : nat) (b : Z) (t : task_state) (st : run_state) : run_state :=
  {| sem_value := sem_value st; tasks := <[i := (b, t)]> (tasks st);
     run_worker := run_worker st; raised := raised st |}.

(** One step of [sema_fetch] inside [run]. *)
Definition step (process_fn : process_fn_type) (ev : event) (st : run_state)
    : option run_state :=
  match ev with
  | Acquire i =>
      match tasks st !! i with
      | Some (b, Waiting) => set_task i b InFlight <$> sem_acquire st
      | _ => None
      end
  | Complete i o =>
      match tasks st !! i with
      | Some (b, InFlight) =>
          let '(r, w) := fetch o b process_fn (run_worker st) in
          let st := {| sem_value := sem_value st; tasks := tasks st;
                       run_worker := w;
                       raised := match raised st, r with
                                 | None, inl e => Some e
                                 | first, _ => first
                                 end |} in
          Some (sem_release (set_task i b (Finished r) st))
      | _ => None
      end
  end.

Fixpoint exec (process_fn : process_fn_type) (evs : list event) (st : run_state)
    : option run_state :=
  match evs with
  | [] => Some st
  | ev :: evs' =>
      match step process_fn ev st with
      | Some st' => exec process_fn evs' st'
      | None => None
      end
  end.

Definition is_in_flight (t : Z * task_state) : bool :=
  match snd t with
  | InFlight => true
  | _ => false
  end.

Definition is_finished (t : Z * task_state) : bool :=
  match snd t with
  | Finished _ => true
  | _ => false
  end.

(** The number of requests that are out. *)
Definition in_flight (st : run_state) : nat :=
  length (List.filter is_in_flight (tasks st)).

(** How [await asyncio.gather] over the tasks ends: with the first exception of a
    task, or normally when every task is done; [None] while it waits. *)
Definition run_outcome (st : run_state) : option (result unit) :=
  match raised st with
  | Some e => Some (inl e)
  | None => if forallb is_finished (tasks st) then Some (inr tt) else None
  end.

(** ** The committer: the end of [setup_process] *)

(** How [helpers.bulk] ends. *)
Inductive bulk_outcome :=
| BulkOk
| BulkRaises (e : exn).

Definition is_type (t : string) (act : action) : bool := String.eqb (_type act) t.

Definition block_ids (blocks : list action) : list Z :=
  omap (fun act => match act with BlockAction id _ => Some id | TxAction _ _ => None end)
       blocks.

(** [max(l)]: [ValueError] on an empty list. *)
Definition py_max (l : list Z) : result Z :=
  match l with
  | [] => inl ValueError
  | x :: l' => inr (fold_left Z.max l' x)
  end.

Definition str_nat (n : nat) : string := str_int (Z.of_nat n).

(** The statements of [setup_process] after [loop.run_until_complete]. *)
Definition commit (o : bulk_outcome) (w : worker) : result unit * worker :=
  let blocks := List.filter (is_type "b") (out_actions w) in
  let txs := List.filter (is_type "tx") (out_actions w) in
  match blocks, txs with
  | [], [] => (inr tt, w)
  | _, _ =>
      let w := {| out_actions := out_actions w; error_log := error_log w;
                  stdout := stdout w;
                  bulk_calls := bulk_calls w ++ [out_actions w] |} in
      match o with
      | BulkOk =>
          match py_max (block_ids blocks) with
          | inl e => (inl e, w)
          | inr top =>
              (inr tt,
               {| out_actions := out_actions w; error_log := error_log w;
                  stdout := stdout w ++
                    ["#" +:+ str_int top +:+ ": (" +:+ str_nat (length blocks) +:+ "b, "
                     +:+ str_nat (length txs) +:+ "tx)"];
                  bulk_calls := bulk_calls w |})
          end
      | BulkRaises (BulkIndexError msg) =>
          (inr tt,
           {| out_actions := out_actions w;
              error_log := error_log w ++
                map (fun id => "block: " +:+ str_int id) (block_ids blocks);
              stdout := stdout w ++
                ["Issue with " +:+ str_nat (length blocks) +:+ " blocks:" +:+ newline
                 +:+ msg +:+ newline];
              bulk_calls := bulk_calls w |})
      | BulkRaises e => (inl e, w)
      end
  end.

(** [setup_process(block_range)] under a schedule [evs] of the event loop
    and an outcome [bulk] of the bulk write; [None] when [evs] is not a
    whole run of the chunk. *)
Definition setup_process (block_range : list Z) (evs : list event) (bulk : bulk_outcome)
    : option (result unit * worker) :=
  st ← exec process_block evs (init_run SEM_SIZE block_range new_worker);
  r ← run_outcome st;
  Some (match r with
        | inl e => (inl e, run_worker st)
        | inr _ => commit bulk (run_worker st)
        end).

(** ** The block-number input file *)

(** [str.isspace] on the ASCII range, the white space that [strip] removes:
    9..13 and 28..32. *)
Definition is_unicode_space (c : ascii) : bool :=
  let n := Z.of_nat (nat_of_ascii c) in
  ((9 <=? n) && (n <=? 13)) || ((28 <=? n) && (n <=? 32)).

Fixpoint lstrip (l : list ascii) : list ascii :=
  match l with
  | c :: l' => if is_unicode_space c then lstrip l' else l
  | [] => []
  end.

(** [x.strip()] *)
Definition py_strip (x : string) : string :=
  string_of_list_ascii (rev (lstrip (rev (lstrip (list_ascii_of_string x))))).

(** The condition of the comprehension:
    [x.strip() and len(x.strip()) <= 8]. *)
Definition keep_line (x : string) : bool :=
  negb (String.eqb (py_strip x) "") && (String.length (py_strip x) <=? 8)%nat.

(** [int(x)] *)
Definition py_int (x : string) : result Z :=
  match PyLong.from_string x 10 with
  | Some n => inr n
  | None => inl ValueError
  end.

(** [[int(x) for x in CONTENT if x.strip() and len(x.strip()) <= 8]] *)
Fixpoint read_block_list (CONTENT : list string) : result (list Z) :=
  match CONTENT with
  | [] => inr []
  | x :: rest =>
      if keep_line x then
        (try n <- py_int x;
         try l <- read_block_list rest;
         inr (n :: l))%result
      else read_block_list rest
  end.

(** ** Predicates and schedules for the properties of the code *)

(** The loop state [s] when the list it appends to held [acts] first. *)
Definition prepend (acts : list action) (s : loop_state) : loop_state :=
  {| tx_hashes := tx_hashes s; tx_value_sum := tx_value_sum s;
     actions := acts ++ actions s |}.

(** The keys that [process_block] writes in a block document and in a
    transaction document; every other key is left as the node sent it. *)
Definition BLOCK_KEYS : list string :=
  ["transactions"; "number"; "timestamp"; "gasLimit"; "gasUsed"; "size";
   "transactionCount"; "txValueSum"].

Definition TX_KEYS : list string := ["blockNumber"; "blockTimestamp"; "value"].

(** [doc] has under every key outside [keys] what [raw] has. *)
Definition passes_through (keys : list string) (raw doc : pyval) : Prop :=
  forall k : string, ~ In k keys -> py_getitem doc k = py_getitem raw k.

(** The accumulator of [s] is one that the loop can hold: the [int] 0 it
    starts from, or a [float]. *)
Definition sum_ready (s : loop_state) : Prop :=
  tx_value_sum s = NInt 0 \/ exists a : float, tx_value_sum s = NFloat a.

(** The schedule that runs the tasks one after the other, task [i] first,
    the network answering with [outcomes] in turn. *)
Fixpoint sequential (i : nat) (outcomes : list post_outcome) : list event :=
  match outcomes with
  | [] => []
  | o :: outcomes' => Acquire i :: Complete i o :: sequential (S i) outcomes'
  end.

(** The number of tasks that are done. *)
Definition finished_count (st : run_state) : nat :=
  length (List.filter is_finished (tasks st)).

(** Every task that is done left one line in the error log or one block
    document in the actions, and there is no transaction document without
    a block document. *)
Definition accounted (st : run_state) : Prop :=
  (length (error_log (run_worker st)) +
   length (block_ids (out_actions (run_worker st))) = finished_count st)%nat /\
  (block_ids (out_actions (run_worker st)) = [] -> out_actions (run_worker st) = []).

(** The line that [setup_process] prints after a bulk write, with the
    highest block number and the counts of both kinds of documents. *)
Definition summary_line (top : Z) (acts : list action) : string :=
  "#" +:+ str_int top +:+ ": (" +:+ str_nat (length (block_ids acts)) +:+ "b, "
  +:+ str_nat (length acts - length (block_ids acts)) +:+ "tx)".

(** ** [make_request] *)

(** The digit [d] of [hex], lower case. *)
Definition hex_digit (d : Z) : ascii :=
  ascii_of_nat (Z.to_nat (if d <? 10 then 48 + d else 87 + d)).

(** The hexadecimal digits of [n] before [acc], most significant first;
    [fuel] bounds their number. *)
Fixpoint hex_digits (fuel : nat) (n : Z) (acc : string) : string :=
  match fuel with
  | O => acc
  | S fuel' =>
      if n =? 0 then acc
      else hex_digits fuel' (n / 16) (String (hex_digit (n mod 16)) acc)
  end.

(** [hex(n)] for an [int] n. *)
Definition py_hex (n : Z) : string :=
  if n =? 0 then "0x0"
  else (if n <? 0 then "-0x" else "0x")
       +:+ hex_digits (S (Z.to_nat (Z.log2 (Z.abs n)))) (Z.abs n) "".

(** The number of digits that [hex_digits] writes. *)
Fixpoint hex_length (fuel : nat) (n : Z) : nat :=
  match fuel with
  | O => O
  | S fuel' => if n =? 0 then O else S (hex_length fuel' (n / 16))
  end.

(** The double quote. *)
Definition dquote : string := String "034"%char EmptyString.

(** [json.dumps] of one character of a [str], with [ensure_ascii]: the
    quote, the backslash and the control characters are escaped, what is
    not between the space and the tilde is written as a [u] escape with
    four hexadecimal digits. *)
Definition json_escape (c : ascii) : string :=
  let n := Z.of_nat (nat_of_ascii c) in
  if n =? 34 then "\" +:+ dquote
  else if n =? 92 then "\\"
  else if n =? 8 then "\b"
  else if n =? 12 then "\f"
  else if n =? 10 then "\n"
  else if n =? 13 then "\r"
  else if n =? 9 then "\t"
  else if (32 <=? n) && (n <=? 126) then String c EmptyString
  else "\u" +:+ String (hex_digit (n / 4096 mod 16))
                (String (hex_digit (n / 256 mod 16))
                (String (hex_digit (n / 16 mod 16))
                (String (hex_digit (n mod 16)) EmptyString))).

Fixpoint json_escape_string (s : string) : string :=
  match s with
  | EmptyString => EmptyString
  | String c s' => json_escape c +:+ json_escape_string s'
  end.

(** [json.dumps(s)] for a [str] s. *)
Definition json_string (s : string) : string :=
  dquote +:+ json_escape_string s +:+ dquote.

(** [json.dumps] of the request dict, around the text of its first
    parameter. *)
Definition request_text (param : string) : string :=
  "{" +:+ json_string "jsonrpc" +:+ ": " +:+ json_string "2.0" +:+ ", "
  +:+ json_string "method" +:+ ": " +:+ json_string "eth_getBlockByNumber" +:+ ", "
  +:+ json_string "params" +:+ ": [" +:+ param +:+ ", true], "
  +:+ json_string "id" +:+ ": 1}".

(** [make_request(block, use_hex)]; [block] is a block number or a tag
    such as [latest]. [hex] raises [TypeError] on a [str]. *)
Definition make_request (block : Z + string) (use_hex : bool) : result string :=
  (try param <-
     (if use_hex then
        match block with
        | inl n => inr (json_string (py_hex n))
        | inr _ => inl TypeError
        end
      else
        inr (match block with
             | inl n => str_int n
             | inr s => json_string s
             end));
   inr (request_text param))%result.


(** ** The block list of a run without an input file *)

(** [list(range(int(args.start_block), int(args.end_block)))] *)
Definition range_block_list (start_block end_block : Z) : result (list Z) :=
  py_range start_block end_block 1.

(** ** Sample runs *)

(** The spec's end-to-end scenario: the answer of the node whose [result]
    is the sample block, and the two documents it is normalized to. *)
Definition sample_tx : pyval :=
  PDict (<["hash" := PStr "0xaa"]>
        (<["blockNumber" := PStr "0x64"]>
        (<["value" := PStr "0xde0b6b3a7640000"]> ∅))).

Definition sample_block : pyval :=
  PDict (<["number" := PStr "0x64"]>
        (<["timestamp" := PStr "0x5f5e100"]>
        (<["gasLimit" := PStr "0x7a1200"]>
        (<["gasUsed" := PStr "0x3d0900"]>
        (<["size" := PStr "0x2710"]>
        (<["transactions" := PList [sample_tx]]> ∅)))))).

Definition sample_response : pyval := PDict (<["result" := sample_block]> ∅).

Definition sample_tx_document : pyval :=
  PDict (<["hash" := PStr "0xaa"]>
        (<["blockNumber" := PInt 100]>
        (<["blockTimestamp" := PDatetime (Datetime 100000000)]>
        (<["value" := PFloat Float.one]> ∅)))).

Definition sample_block_document : pyval :=
  PDict (<["number" := PInt 100]>
        (<["timestamp" := PDatetime (Datetime 100000000)]>
        (<["gasLimit" := PInt 8000000]>
        (<["gasUsed" := PInt 4000000]>
        (<["size" := PInt 10000]>
        (<["transactions" := PList [PStr "0xaa"]]>
        (<["transactionCount" := PInt 1]>
        (<["txValueSum" := PFloat Float.one]> ∅)))))))).

(** A block numbered 0x64 that carries a transaction which names block
    0x65. *)
Definition mismatch_response : pyval :=
  PDict (<["result" :=
    PDict (<["number" := PStr "0x64"]>
          (<["timestamp" := PStr "0x5f5e100"]>
          (<["gasLimit" := PStr "0x7a1200"]>
          (<["gasUsed" := PStr "0x3d0900"]>
          (<["size" := PStr "0x2710"]>
          (<["transactions" := PList [
              PDict (<["hash" := PStr "0xaa"]>
                    (<["blockNumber" := PStr "0x65"]>
                    (<["value" := PStr "0xde0b6b3a7640000"]> ∅)))]]> ∅))))))]> ∅).

(** Two answers for a chunk of the blocks 5 and 6: block 6 with no
    transaction, and a block 5 that lacks all fields but its number. *)
Definition good_response_6 : pyval :=
  PDict (<["result" :=
    PDict (<["number" := PStr "0x6"]>
          (<["timestamp" := PStr "0x5f5e100"]>
          (<["gasLimit" := PStr "0x7a1200"]>
          (<["gasUsed" := PStr "0x0"]>
          (<["size" := PStr "0x2710"]>
          (<["transactions" := PList []]> ∅))))))]> ∅).

Definition malformed_response_5 : pyval :=
  PDict (<["result" := PDict (<["number" := PStr "0x5"]> ∅)]> ∅).

(** A block with two transactions, the second without its value. *)
Definition two_tx_response : pyval :=
  PDict (<["result" :=
    PDict (<["number" := PStr "0x64"]>
          (<["timestamp" := PStr "0x5f5e100"]>
          (<["gasLimit" := PStr "0x7a1200"]>
          (<["gasUsed" := PStr "0x3d0900"]>
          (<["size" := PStr "0x2710"]>
          (<["transactions" := PList [
              sample_tx;
              PDict (<["hash" := PStr "0xbb"]> (<["blockNumber" := PStr "0x64"]> ∅))]]>
           ∅))))))]> ∅).

(** A block with two transactions, of 2 ether and of 1 ether. *)
Definition two_value_response : pyval :=
  PDict (<["result" :=
    PDict (<["number" := PStr "0x64"]>
          (<["timestamp" := PStr "0x5f5e100"]>
          (<["gasLimit" := PStr "0x7a1200"]>
          (<["gasUsed" := PStr "0x3d0900"]>
          (<["size" := PStr "0x2710"]>
          (<["transactions" := PList [
              PDict (<["hash" := PStr "0xa1"]>
                    (<["blockNumber" := PStr "0x64"]>
                    (<["value" := PStr "0x1bc16d674ec80000"]> ∅)));
              PDict (<["hash" := PStr "0xa2"]>
                    (<["blockNumber" := PStr "0x64"]>
                    (<["value" := PStr "0xde0b6b3a7640000"]> ∅)))]]> ∅))))))]> ∅).

(** The literal [3.0]. *)
Definition float_three : float := S754_finite false 6755399441055744 (-51).

Example chunks_7_3 :
  chunks [1; 2; 3; 4; 5; 6; 7] 3 = inr [[1; 2; 3]; [4; 5; 6]; [7]].
Proof. reflexivity. Qed.

Example from_string_hex : PyLong.from_string "0xde0b6b3a7640000" 0 = Some (10 ^ 18).
Proof. reflexivity. Qed.

Example from_string_old_octal : PyLong.from_string "010" 0 = None.
Proof. reflexivity. Qed.

Example from_string_spaces : PyLong.from_string " -1_000 " 10 = Some (-1000).
Proof. reflexivity. Qed.

Example str_int_negative : str_int (-250) = "-250".
Proof. reflexivity. Qed.

Example py_strip_line : py_strip (" 4370000 " +:+ newline) = "4370000".
Proof. reflexivity. Qed.

Example py_hex_100 : py_hex 100 = "0x64".
Proof. reflexivity. Qed.
Example py_hex_neg : py_hex (-255) = "-0xff".
Proof. reflexivity. Qed.


(** * The partitioner *)

Section Chunks.
Context {A : Type}.
Implicit Types (lst : list A) (C : Z) (c m k : nat).

Lemma range_length_ceil (n C : Z) :
  0 <= n -> 0 < C -> range_length 0 n C = (n + C - 1) / C.
Proof.
  intros Hn HC. unfold range_length.
  destruct (Z.ltb_spec 0 C) as [_|]; [|lia].
  destruct (Z.ltb_spec 0 n) as [Hpos|Hz].
  - replace (n + C - 1) with (n - 1 + 1 * C) by lia.
    rewrite Z.div_add by lia. rewrite Z.sub_0_r. reflexivity.
  - assert (n = 0) as -> by lia. simpl.
    symmetry. apply Z.div_small. lia.
Qed.

Lemma py_slice_window lst (i C : Z) :
  0 < C -> 0 <= i <= Z.of_nat (length lst) ->
  py_slice lst i (i + C) = take (Z.to_nat C) (drop (Z.to_nat i) lst).
Proof.
  intros HC Hi. unfold py_slice, slice_index.
  destruct (Z.ltb_spec i 0); [lia|].
  destruct (Z.ltb_spec (i + C) 0); [lia|].
  rewrite (Z.min_l i) by lia.
  destruct (Z.le_ge_cases (i + C) (Z.of_nat (length lst))) as [Hle|Hge].
  - rewrite Z.min_l by lia. f_equal. lia.
  - rewrite Z.min_r by lia.
    rewrite !take_ge; [done| |]; rewrite length_drop; lia.
Qed.

Lemma chunks_unfold lst C :
  0 < C ->
  chunks lst C =
  inr (map (fun k : nat => take (Z.to_nat C) (drop (k * Z.to_nat C) lst))
           (seq 0 (Z.to_nat ((Z.of_nat (length lst) + C - 1) / C)))).
Proof.
  intros HC. unfold chunks, py_range.
  destruct (Z.eqb_spec C 0) as [|_]; [lia|]. simpl. f_equal.
  rewrite range_length_ceil by lia.
  rewrite map_map. apply map_ext_in. intros k Hk.
  apply in_seq in Hk.
  set (n := Z.of_nat (length lst)) in *.
  assert (Z.of_nat k < (n + C - 1) / C) as Hlt by lia.
  assert (Z.of_nat k * C < n) as Hin.
  { assert (C * ((n + C - 1) / C) <= n + C - 1) by (apply Z.mul_div_le; lia). nia. }
  rewrite py_slice_window by (unfold n in *; lia).
  do 2 f_equal. lia.
Qed.

Lemma concat_windows lst c m :
  concat (map (fun k : nat => take c (drop (k * c) lst)) (seq 0 m)) = take (m * c) lst.
Proof.
  induction m as [|m IH]; [done|].
  rewrite seq_S, map_app, concat_app, IH. simpl.
  rewrite app_nil_r, take_take_drop. f_equal. lia.
Qed.
End Chunks.


(** C1. For a list of N block numbers and a chunk size C > 0, [chunks]
    returns (N + C - 1) / C chunks, that is the ceiling of N / C; their
    concatenation in order is the list; every chunk but the last has
    length C; the last has length N mod C, or C when N mod C = 0. *)
Theorem chunks_partition (lst : list Z) (C : Z) :
  0 < C ->
  let N := Z.of_nat (length lst) in
  exists cs : list (list Z),
    chunks lst C = inr cs /\
    Z.of_nat (length cs) = (N + C - 1) / C /\
    concat cs = lst /\
    (forall (k : nat) (c : list Z),
        cs !! k = Some c -> (S k < length cs)%nat -> Z.of_nat (length c) = C) /\
    (forall c : list Z,
        last cs = Some c ->
        Z.of_nat (length c) = if N mod C =? 0 then C else N mod C).
Proof.
  intros HC N. eexists. split; [apply chunks_unfold; exact HC|].
  fold N. set (m := Z.to_nat ((N + C - 1) / C)). set (c := Z.to_nat C).
  assert (0 <= (N + C - 1) / C) as Hm0 by (apply Z.div_pos; lia).
  assert (C * ((N + C - 1) / C) <= N + C - 1) as Hlo by (apply Z.mul_div_le; lia).
  assert (N + C - 1 < C * ((N + C - 1) / C) + C) as Hhi.
  { pose proof (Z.mod_pos_bound (N + C - 1) C HC).
    pose proof (Z.div_mod (N + C - 1) C). lia. }
  assert (Z.of_nat m = (N + C - 1) / C) as Hm by lia.
  assert (Z.of_nat c = C) as Hc by lia.
  split; [|split; [|split]].
  - rewrite length_map, length_seq. exact Hm.
  - rewrite concat_windows. apply take_ge. nia.
  - intros k ch Hk Hlt. rewrite length_map, length_seq in Hlt.
    rewrite list_lookup_fmap in Hk.
    rewrite lookup_seq_lt in Hk by lia. simpl in Hk. injection Hk as <-.
    rewrite length_take_le; [lia|]. rewrite length_drop. nia.
  - intros ch Hlast. rewrite last_lookup, length_map, length_seq in Hlast.
    rewrite list_lookup_fmap in Hlast.
    destruct m as [|m']; [done|]. simpl pred in Hlast.
    rewrite lookup_seq_lt in Hlast by lia. simpl in Hlast. injection Hlast as <-.
    rewrite length_take, length_drop.
    pose proof (Z.mod_pos_bound N C HC) as Hmod.
    pose proof (Z.div_mod N C ltac:(lia)) as Hdm.
    assert (Z.of_nat m' * C < N) as Hin by nia.
    assert (Z.of_nat (length lst - m' * c) = N - Z.of_nat m' * C) as Hrest by (unfold N in *; nia).
    rewrite Nat2Z.inj_min, Hrest, Hc.
    destruct (Z.eqb_spec (N mod C) 0) as [Hz|Hnz].
    + assert (Z.of_nat m' = N / C - 1) by nia. nia.
    + assert (Z.of_nat m' = N / C) by nia. nia.
Qed.


Lemma chunks_partition_witness :
  0 < 2 /\
  exists cs : list (list Z),
    chunks [10; 11; 12; 13; 14] 2 = inr cs /\
    Z.of_nat (length cs) = (5 + 2 - 1) / 2 /\
    concat cs = [10; 11; 12; 13; 14].
Proof.
  split; [lia|].
  destruct (chunks_partition [10; 11; 12; 13; 14] 2 ltac:(lia)) as (cs & H1 & H2 & H3 & _).
  exists cs. auto.
Defined.

(** C8, as the code has it. A chunk size of 0 makes [range] raise
    [ValueError] as soon as the generator is run, which is before any chunk
    exists; a negative chunk size raises nothing: the range is empty and
    [chunks] yields no chunk at all. *)
Theorem chunks_nonpositive (lst : list Z) (C : Z) :
  C <= 0 ->
  chunks lst C = if C =? 0 then inl ValueError else inr [].
Proof.
  intros HC. unfold chunks, py_range.
  destruct (Z.eqb_spec C 0) as [->|Hneg]; [reflexivity|].
  unfold range_length.
  destruct (Z.ltb_spec 0 C); [lia|].
  destruct (Z.ltb_spec (Z.of_nat (length lst)) 0); [lia|].
  reflexivity.
Qed.

Lemma chunks_nonpositive_witness :
  -3 <= 0 /\ chunks [1; 2; 3] (-3) = inr [].
Proof. split; [lia | apply (chunks_nonpositive [1; 2; 3] (-3)); lia]. Defined.

(** C8 as stated fails: with the chunk size -1 the partitioner does not
    fail, it returns an empty list of chunks. *)
Lemma chunks_negative_size_does_not_fail :
  -1 <= 0 /\ chunks [1; 2; 3] (-1) = inr [].
Proof. split; [lia | reflexivity]. Qed.

(** * The normalizer *)

(** C2, as the code has it: the sample block is normalized to a block
    document with number 100, gasLimit 8000000 (the hexadecimal 7a1200),
    gasUsed 4000000, size 10000, transactionCount 1, txValueSum 1.0 and
    transactions ["0xaa"], and to one transaction document with hash
    "0xaa", blockNumber 100 and value 1.0. *)
Theorem process_block_sample :
  process_block sample_response [] =
  (inr tt, [TxAction (PStr "0xaa") sample_tx_document;
            BlockAction 100 sample_block_document]).
Proof. vm_compute. reflexivity. Qed.

(** C2 as stated fails: the gasLimit of the normalized sample block is
    8000000, which is not 8000512. *)
Lemma process_block_sample_gas_limit :
  exists doc : pyval,
    last (snd (process_block sample_response [])) = Some (BlockAction 100 doc) /\
    py_getitem doc "gasLimit" = inr (PInt 8000000) /\
    py_getitem doc "gasLimit" <> inr (PInt 8000512).
Proof.
  eexists. split; [vm_compute; reflexivity|].
  split; [vm_compute; reflexivity|].
  vm_compute. discriminate.
Qed.

(** Splits a chain of [rbind]s that ends well at its first step. *)
Ltac bind_inv H :=
  match type of H with
  | rbind ?r _ = inr _ =>
      let E := fresh "E" in
      destruct r eqn:E; simpl in H; [discriminate H|]
  end.

Lemma py_getitem_dict (v x : pyval) (k : string) :
  py_getitem v k = inr x -> exists d, v = PDict d /\ d !! k = Some x.
Proof.
  destruct v; simpl; try discriminate.
  destruct (d !! k) eqn:E; [|discriminate].
  intros [= <-]. eauto.
Qed.

Lemma py_getitem_insert (d : gmap string pyval) (k k' : string) (x : pyval) :
  py_getitem (PDict (<[k := x]> d)) k' =
  if decide (k = k') then inr x else py_getitem (PDict d) k'.
Proof. simpl. rewrite lookup_insert. destruct (decide (k = k')); reflexivity. Qed.

Lemma process_tx_spec (ts : datetime) (tx : pyval) (s s' : loop_state) :
  process_tx ts tx s = inr s' ->
  exists o : tx_output,
    tx_normalized ts tx o /\
    tx_hashes s' = tx_hashes s ++ [out_hash o] /\
    actions s' = actions s ++ [tx_action o] /\
    py_add (tx_value_sum s) (out_value o) = inr (tx_value_sum s').
Proof.
  unfold process_tx. intros H.
  bind_inv H. apply py_getitem_dict in E as (d & -> & Hnb).
  bind_inv H. simpl in H.
  rewrite lookup_insert_ne, lookup_insert_ne in H by done.
  destruct (d !! "value") as [raw_value|] eqn:Hval; simpl in H; [|discriminate].
  bind_inv H. bind_inv H. bind_inv H.
  rewrite !lookup_insert_ne in H by done.
  destruct (d !! "hash") as [hash|] eqn:Hhash; simpl in H; [|discriminate].
  injection H as <-. 
  eexists (TxOutput hash _ f). split; [|repeat split; simpl; try reflexivity; assumption].
  exists p, raw_value, z, z0. simpl.
  rewrite Hnb, Hval, Hhash.
  repeat split; try assumption.
  - rewrite !lookup_insert_ne by done. by rewrite Hhash.
  - rewrite !lookup_insert_ne by done. by rewrite lookup_insert_eq.
  - rewrite !lookup_insert_ne by done. by rewrite lookup_insert_eq.
  - by rewrite lookup_insert_eq.
Qed.

Lemma process_txs_spec (ts : datetime) (txs : list pyval) :
  forall (s s' : loop_state) (acts : list action),
    process_txs ts txs s = (inr s', acts) ->
    acts = actions s' /\
    exists outs : list tx_output,
      Forall2 (tx_normalized ts) txs outs /\
      tx_hashes s' = tx_hashes s ++ map out_hash outs /\
      actions s' = actions s ++ map tx_action outs /\
      sum_from (tx_value_sum s) (map out_value outs) = inr (tx_value_sum s').
Proof.
  induction txs as [|tx txs IH]; intros s s' acts H; simpl in H.
  - injection H as <- <-. split; [reflexivity|].
    exists []. simpl. rewrite !app_nil_r. repeat split. constructor.
  - destruct (process_tx ts tx s) as [e|s1] eqn:Htx; [discriminate|].
    apply process_tx_spec in Htx as (o & Hnorm & Hh & Ha & Hsum).
    apply IH in H as (-> & outs & Hall & Hh' & Ha' & Hsum').
    split; [reflexivity|].
    exists (o :: outs). simpl.
    rewrite Hh', Hh, Ha', Ha, <- !app_assoc. simpl.
    rewrite Hsum. simpl.
    repeat split; [constructor; assumption|assumption].
Qed.

Lemma block_document_spec (block : pyval) (block_nb : Z) (ts : datetime)
    (s : loop_state) (doc : pyval) :
  block_document block block_nb ts s = inr doc ->
  py_getitem doc "transactions" = inr (PList (tx_hashes s)) /\
  py_getitem doc "number" = inr (PInt block_nb) /\
  py_getitem doc "timestamp" = inr (PDatetime ts) /\
  py_getitem doc "transactionCount" = inr (PInt (Z.of_nat (length (tx_hashes s)))) /\
  py_getitem doc "txValueSum" = inr (number_val (tx_value_sum s)).
Proof.
  unfold block_document. intros H.
  destruct block; try discriminate H. simpl in H.
  repeat (match type of H with
          | context [match ?x with Some _ => _ | None => _ end] =>
              destruct x; simpl in H; [|discriminate H]
          end; bind_inv H).
  injection H as <-. simpl.
  repeat split;
    repeat (first [rewrite lookup_insert_eq | rewrite lookup_insert_ne by done]);
    reflexivity.
Qed.

Lemma sum_from_float (values : list float) :
  forall a : float,
    sum_from (NFloat a) values = inr (NFloat (fold_left (SFadd 53 1024) values a)).
Proof.
  induction values as [|v values IH]; intros a; simpl; [reflexivity|]. apply IH.
Qed.

Lemma sum_from_zero (values : list float) (total : pynumber) :
  sum_from (NInt 0) values = inr total ->
  number_val total = sum_of_values values.
Proof.
  destruct values as [|v values]; simpl.
  - intros [= <-]. reflexivity.
  - change (Float.of_int 0) with (@inr exn float (S754_zero false)). simpl.
    rewrite sum_from_float. intros [= <-]. reflexivity.
Qed.

(** C3. When [process_block] returns, the block document it appended has a
    [transactionCount] equal to the length of its [transactions] list of
    hashes, and a [txValueSum] equal to the sum of the [value] fields of
    the transaction documents appended for the same block: their binary64
    sum from left to right from 0.0, and the [int] 0 when the block has no
    transaction. *)
Theorem process_block_aggregates (response : pyval) (acts0 acts : list action) :
  process_block response acts0 = (inr tt, acts) ->
  exists (outs : list tx_output) (block_nb : Z) (doc : pyval),
    acts = acts0 ++ map tx_action outs ++ [BlockAction block_nb doc] /\
    Forall (fun o => py_getitem (out_document o) "hash" = inr (out_hash o) /\
                     py_getitem (out_document o) "value" = inr (PFloat (out_value o)))
           outs /\
    py_getitem doc "transactions" = inr (PList (map out_hash outs)) /\
    py_getitem doc "transactionCount" = inr (PInt (Z.of_nat (length (map out_hash outs)))) /\
    py_getitem doc "txValueSum" = inr (sum_of_values (map out_value outs)).
Proof.
  unfold process_block. intros H.
  destruct (block_header response) as [e|[[[block txs] block_nb] ts]]; [discriminate|].
  destruct (process_txs ts txs _) as [[e|s] acts1] eqn:Hloop; [discriminate|].
  apply process_txs_spec in Hloop as (-> & outs & Hall & Hh & Ha & Hsum).
  simpl in Hh, Ha, Hsum.
  destruct (block_document block block_nb ts s) as [e|doc] eqn:Hdoc; [discriminate|].
  injection H as <-.
  apply block_document_spec in Hdoc as (Htxs & _ & _ & Hcount & Htotal).
  apply sum_from_zero in Hsum. rewrite Hsum in Htotal.
  exists outs, block_nb, doc.
  rewrite Hh in Htxs, Hcount.
  repeat split; try assumption.
  - rewrite Ha, <- app_assoc. reflexivity.
  - clear -Hall. induction Hall as [|tx o txs outs Hn _ IH]; constructor; [|exact IH].
    destruct Hn as (? & ? & ? & ? & Hn). tauto.
Qed.

Lemma process_block_aggregates_witness :
  exists (acts : list action) (doc : pyval),
    process_block two_value_response [] = (inr tt, acts) /\
    last acts = Some (BlockAction 100 doc) /\
    py_getitem doc "transactionCount" = inr (PInt 2) /\
    py_getitem doc "txValueSum" = inr (PFloat float_three).
Proof.
  eexists _, _. split; [vm_compute; reflexivity|].
  split; [reflexivity|]. split; [vm_compute; reflexivity|].
  match goal with
  | |- py_getitem ?d _ = _ => set (the_doc := d)
  end.
  destruct (process_block_aggregates two_value_response [] _ ltac:(vm_compute; reflexivity))
    as (outs & block_nb & doc & Hacts & Hval & _ & _ & Hsum).
  destruct outs as [|o1 [|o2 [|o3 outs]]]; try discriminate Hacts;
    try (simpl in Hacts; injection Hacts as _ _ _ _ Hacts; destruct outs; discriminate Hacts).
  unfold tx_action in Hacts. simpl in Hacts.
  injection Hacts as _ Hd1 _ Hd2 _ Hdoc.
  inversion Hval as [|? ? [_ Hv1] Hval']. inversion Hval' as [|? ? [_ Hv2] _]. subst.
  simpl map in Hsum.
  remember (out_value o1) as v1 eqn:E1. remember (out_value o2) as v2 eqn:E2.
  clear E1 E2.
  rewrite <- Hd1 in Hv1. rewrite <- Hd2 in Hv2.
  vm_compute in Hv1. vm_compute in Hv2.
  injection Hv1 as <-. injection Hv2 as <-.
  fold the_doc in Hsum. rewrite Hsum. vm_compute. reflexivity.
Defined.

Lemma block_header_spec (response block : pyval) (txs : list pyval) (block_nb : Z)
    (ts : datetime) :
  block_header response = inr (block, txs, block_nb, ts) ->
  exists (transactions raw_number raw_timestamp : pyval) (timestamp : Z),
    py_getitem response "result" = inr block /\
    py_getitem block "transactions" = inr transactions /\
    py_iter transactions = inr txs /\
    py_getitem block "number" = inr raw_number /\
    py_int0 raw_number = inr block_nb /\
    py_getitem block "timestamp" = inr raw_timestamp /\
    py_int0 raw_timestamp = inr timestamp /\
    fromtimestamp timestamp = inr ts.
Proof.
  unfold block_header. intros H.
  repeat bind_inv H. injection H as <- <- <- <-.
  eexists _, _, _, _. repeat split; eassumption.
Qed.

(** C4, as the code has it. When [process_block] returns, every raw
    transaction of the block has its document among the actions, in order:
    its [blockTimestamp] is the time made from the block's [timestamp]
    field, which is also the [timestamp] of the block document; its [value]
    is its raw [value] field parsed by [int(_, 0)] and divided by 1e18 as
    floats; its [blockNumber] is its own raw [blockNumber] field parsed by
    [int(_, 0)]. *)
Theorem process_block_transactions (response : pyval) (acts0 acts : list action) :
  process_block response acts0 = (inr tt, acts) ->
  exists (block transactions raw_timestamp : pyval) (timestamp : Z) (ts : datetime)
         (txs : list pyval) (outs : list tx_output) (block_nb : Z) (doc : pyval),
    py_getitem response "result" = inr block /\
    py_getitem block "transactions" = inr transactions /\
    py_iter transactions = inr txs /\
    py_getitem block "timestamp" = inr raw_timestamp /\
    py_int0 raw_timestamp = inr timestamp /\
    fromtimestamp timestamp = inr ts /\
    acts = acts0 ++ map tx_action outs ++ [BlockAction block_nb doc] /\
    py_getitem doc "timestamp" = inr (PDatetime ts) /\
    Forall2 (tx_normalized ts) txs outs.
Proof.
  unfold process_block. intros H.
  destruct (block_header response) as [e|[[[block txs] block_nb] ts]] eqn:Hhead;
    [discriminate|].
  apply block_header_spec in Hhead
    as (transactions & raw_number & raw_timestamp & timestamp & Hhead).
  destruct (process_txs ts txs _) as [[e|s] acts1] eqn:Hloop; [discriminate|].
  apply process_txs_spec in Hloop as (-> & outs & Hall & _ & Ha & _).
  simpl in Ha.
  destruct (block_document block block_nb ts s) as [e|doc] eqn:Hdoc; [discriminate|].
  injection H as <-.
  apply block_document_spec in Hdoc as (_ & _ & Hts & _).
  exists block, transactions, raw_timestamp, timestamp, ts, txs, outs, block_nb, doc.
  rewrite Ha, <- app_assoc. tauto.
Qed.

Lemma process_block_transactions_witness :
  process_block sample_response [] =
    (inr tt, [TxAction (PStr "0xaa") sample_tx_document;
              BlockAction 100 sample_block_document]) /\
  exists (ts : datetime) (txs : list pyval) (outs : list tx_output),
    py_iter (PList [sample_tx]) = inr txs /\
    fromtimestamp 100000000 = inr ts /\
    Forall2 (tx_normalized ts) txs outs.
Proof.
  split; [vm_compute; reflexivity|].
  destruct (process_block_transactions sample_response [] _ ltac:(vm_compute; reflexivity))
    as (block & transactions & raw_ts & timestamp & ts & txs & outs & nb & doc
        & Hb & Htxs & Hiter & Hraw & Hint & Hts & _ & _ & Hall).
  vm_compute in Hb. injection Hb as <-.
  vm_compute in Htxs. injection Htxs as <-.
  vm_compute in Hraw. injection Hraw as <-.
  vm_compute in Hint. injection Hint as <-.
  exists ts, txs, outs. auto.
Defined.

(** C4 as stated fails: a block numbered 100 with a transaction whose own
    [blockNumber] field reads 0x65 gives that transaction the blockNumber
    101. *)
Lemma transaction_block_number_is_its_own :
  exists tx_doc block_doc : pyval,
    process_block mismatch_response [] =
      (inr tt, [TxAction (PStr "0xaa") tx_doc; BlockAction 100 block_doc]) /\
    py_getitem block_doc "number" = inr (PInt 100) /\
    py_getitem tx_doc "blockNumber" = inr (PInt 101).
Proof.
  do 2 eexists. split; [vm_compute; reflexivity|].
  split; vm_compute; reflexivity.
Qed.

(** * The fetcher *)

Create HintDb pyexn.

Lemma py_getitem_error v k e : py_getitem v k = inl e -> is_network_error e = false.
Proof.
  destruct v; simpl; try (intros [= <-]; reflexivity).
  destruct (d !! k); [discriminate|]. intros [= <-]. reflexivity.
Qed.

Lemma py_setitem_error v k x e : py_setitem v k x = inl e -> is_network_error e = false.
Proof. destruct v; simpl; try discriminate; intros [= <-]; reflexivity. Qed.

Lemma py_int0_error v e : py_int0 v = inl e -> is_network_error e = false.
Proof.
  destruct v; simpl; try (intros [= <-]; reflexivity).
  destruct (PyLong.from_string s 0); [discriminate|]. intros [= <-]. reflexivity.
Qed.

Lemma py_iter_error v e : py_iter v = inl e -> is_network_error e = false.
Proof. destruct v; simpl; try discriminate; intros [= <-]; reflexivity. Qed.

Lemma fromtimestamp_error n e : fromtimestamp n = inl e -> is_network_error e = false.
Proof.
  unfold fromtimestamp. destruct (_ && _); [discriminate|]. intros [= <-]. reflexivity.
Qed.

Lemma of_int_error n e : Float.of_int n = inl e -> is_network_error e = false.
Proof.
  unfold Float.of_int.
  destruct (binary_normalize _ _ _ _ _); try discriminate. intros [= <-]. reflexivity.
Qed.

Lemma py_truediv_error n f e : py_truediv n f = inl e -> is_network_error e = false.
Proof.
  unfold py_truediv. destruct (Float.of_int n) eqn:E; simpl; [|discriminate].
  intros [= <-]. eapply of_int_error, E.
Qed.

Lemma py_add_error acc x e : py_add acc x = inl e -> is_network_error e = false.
Proof.
  destruct acc; simpl; [|discriminate].
  destruct (Float.of_int n) eqn:E; simpl; [|discriminate].
  intros [= <-]. eapply of_int_error, E.
Qed.

#[local] Hint Resolve py_getitem_error py_setitem_error py_int0_error py_iter_error
  fromtimestamp_error py_truediv_error py_add_error : pyexn.

(** Splits a chain of [rbind]s that ends in an exception at the step that
    raised it. *)
Ltac bind_error H :=
  repeat match type of H with
         | rbind ?r _ = inl _ =>
             let E := fresh "E" in
             destruct r eqn:E; simpl in H;
             [injection H as <-; eauto with pyexn|]
         end;
  try discriminate H; eauto with pyexn.

Lemma process_tx_error ts tx s e :
  process_tx ts tx s = inl e -> is_network_error e = false.
Proof. unfold process_tx. intros H. bind_error H. Qed.

Lemma process_txs_error ts txs :
  forall s e acts, process_txs ts txs s = (inl e, acts) -> is_network_error e = false.
Proof.
  induction txs as [|tx txs IH]; intros s e acts H; simpl in H; [discriminate|].
  destruct (process_tx ts tx s) eqn:Htx.
  - injection H as <- _. eapply process_tx_error, Htx.
  - eapply IH, H.
Qed.

Lemma block_header_error response e :
  block_header response = inl e -> is_network_error e = false.
Proof. unfold block_header. intros H. bind_error H. Qed.

Lemma block_document_error block nb ts s e :
  block_document block nb ts s = inl e -> is_network_error e = false.
Proof. unfold block_document. intros H. bind_error H. Qed.

Lemma process_block_error response acts0 e acts :
  process_block response acts0 = (inl e, acts) -> is_network_error e = false.
Proof.
  unfold process_block. intros H.
  destruct (block_header response) as [e'|[[[block txs] block_nb] ts]] eqn:Hhead.
  { injection H as <- _. eapply block_header_error, Hhead. }
  destruct (process_txs ts txs _) as [[e'|s] acts1] eqn:Hloop.
  { injection H as <- _. eapply process_txs_error, Hloop. }
  destruct (block_document block block_nb ts s) eqn:Hdoc; [|discriminate].
  injection H as <- _. eapply block_document_error, Hdoc.
Qed.

Section Run.
Variable process_fn : process_fn_type.

Lemma fetch_bulk_calls o b w :
  bulk_calls (snd (fetch o b process_fn w)) = bulk_calls w.
Proof.
  unfold fetch.
  destruct (match o with Response _ => _ | Raises _ => _ end) as [[e|[]] acts];
    [destruct e|]; reflexivity.
Qed.

Lemma fetch_network_error b w e msg :
  e = ClientError msg \/ e = TimeoutError msg ->
  fetch (Raises e) b process_fn w =
  (inr tt,
   {| out_actions := out_actions w;
      error_log := error_log w ++ ["block: " +:+ str_int b];
      stdout := stdout w ++
        ["Issue with block " +:+ str_int b +:+ ":" +:+ newline +:+ msg +:+ newline];
      bulk_calls := bulk_calls w |}).
Proof. intros [-> | ->]; reflexivity. Qed.

Lemma fetch_uncaught body b w e acts :
  process_fn body (out_actions w) = (inl e, acts) ->
  is_network_error e = false ->
  fetch (Response body) b process_fn w =
  (inl e, {| out_actions := acts; error_log := error_log w;
             stdout := stdout w; bulk_calls := bulk_calls w |}).
Proof. unfold fetch. intros -> He. destruct e; try discriminate; reflexivity. Qed.

Lemma count_insert {A} (f : A -> bool) (l : list A) :
  forall (i : nat) (x y : A),
    l !! i = Some y ->
    (length (List.filter f (<[i := x]> l)) + Nat.b2n (f y) =
     length (List.filter f l) + Nat.b2n (f x))%nat.
Proof.
  induction l as [|a l IH]; intros i x y Hi; [done|].
  destruct i as [|i]; simpl in *.
  - injection Hi as ->. destruct (f x), (f y); simpl; lia.
  - specialize (IH i x y Hi). destruct (f a); simpl; lia.
Qed.

Lemma step_acquire i st st' :
  step process_fn (Acquire i) st = Some st' ->
  sem_value st = S (sem_value st') /\
  in_flight st' = S (in_flight st) /\
  run_worker st' = run_worker st /\
  raised st' = raised st.
Proof.
  simpl. destruct (tasks st !! i) as [[b []]|] eqn:Hi; try discriminate.
  unfold sem_acquire. destruct (sem_value st) eqn:Hsem; [discriminate|].
  simpl. intros [= <-]. simpl. repeat split.
  unfold in_flight. simpl.
  pose proof (count_insert is_in_flight (tasks st) i (b, InFlight) _ Hi) as H.
  simpl in H. lia.
Qed.

Lemma step_complete i o st st' :
  step process_fn (Complete i o) st = Some st' ->
  sem_value st' = S (sem_value st) /\
  in_flight st = S (in_flight st') /\
  bulk_calls (run_worker st') = bulk_calls (run_worker st) /\
  (forall e, raised st = Some e -> raised st' = Some e).
Proof.
  simpl. destruct (tasks st !! i) as [[b []]|] eqn:Hi; try discriminate.
  pose proof (fetch_bulk_calls o b (run_worker st)) as Hbulk.
  destruct (fetch o b process_fn (run_worker st)) as [r w].
  intros [= <-]. simpl. repeat split.
  - unfold in_flight. simpl.
    pose proof (count_insert is_in_flight (tasks st) i (b, Finished r) _ Hi) as H.
    simpl in H. lia.
  - exact Hbulk.
  - intros e ->. reflexivity.
Qed.

Lemma exec_app evs1 evs2 st :
  exec process_fn (evs1 ++ evs2) st =
  match exec process_fn evs1 st with
  | Some st1 => exec process_fn evs2 st1
  | None => None
  end.
Proof.
  revert st. induction evs1 as [|ev evs1 IH]; intros st; simpl; [reflexivity|].
  destruct (step process_fn ev st); [apply IH|reflexivity].
Qed.

Lemma exec_invariant evs :
  forall st st',
    exec process_fn evs st = Some st' ->
    (in_flight st' + sem_value st' = in_flight st + sem_value st)%nat /\
    bulk_calls (run_worker st') = bulk_calls (run_worker st) /\
    (forall e, raised st = Some e -> raised st' = Some e).
Proof.
  induction evs as [|ev evs IH]; intros st st' H; simpl in H.
  - injection H as <-. auto.
  - destruct (step process_fn ev st) as [st1|] eqn:Hstep; [|discriminate].
    apply IH in H as (Hn & Hb & Hr).
    destruct ev as [i|i o].
    + apply step_acquire in Hstep as (Hs & Hf & Hw & Hraised).
      rewrite Hw in Hb. rewrite Hraised in Hr. repeat split; [lia|assumption..].
    + apply step_complete in Hstep as (Hs & Hf & Hw & Hraised).
      rewrite Hw in Hb. repeat split; [lia|assumption|auto].
Qed.

Lemma in_flight_init sem_size block_range w :
  in_flight (init_run sem_size block_range w) = O.
Proof.
  unfold in_flight. simpl. induction block_range as [|b l IH]; [reflexivity|exact IH].
Qed.

(** C9. In every state that [run] can reach, whatever the chunk and the
    size of the semaphore, at most that many requests are out. A task
    takes one slot when it enters [async with sem], which is the only way
    to have a request out, and gives it back when its [fetch] ends, with
    any outcome. *)
Theorem in_flight_bounded (sem_size : nat) (block_range : list Z) (w : worker)
    (evs : list event) (st : run_state) :
  exec process_fn evs (init_run sem_size block_range w) = Some st ->
  (in_flight st <= sem_size)%nat /\
  (forall i st', step process_fn (Acquire i) st = Some st' ->
                 sem_value st = S (sem_value st') /\ in_flight st' = S (in_flight st)) /\
  (forall i o st', step process_fn (Complete i o) st = Some st' ->
                   sem_value st' = S (sem_value st) /\ in_flight st = S (in_flight st')).
Proof.
  intros H. apply exec_invariant in H as (Hn & _).
  rewrite in_flight_init in Hn. simpl in Hn. split; [lia|]. split.
  - intros i st' Hstep. apply step_acquire in Hstep. tauto.
  - intros i o st' Hstep. apply step_complete in Hstep. tauto.
Qed.

(** C6, as the code has it. When the request of a task fails with
    [aiohttp.ClientError] or [asyncio.TimeoutError], [fetch] returns without
    an exception; the error log gets the line "block: " followed by the
    block number, and nothing of the error; the error text is printed with
    the block number; no action is added; [run] has no exception to raise
    from it; every other task of the chunk is as it was. *)
Theorem network_error_skips_block (st : run_state) (i : nat) (b : Z) (e : exn)
    (msg : string) :
  tasks st !! i = Some (b, InFlight) ->
  e = ClientError msg \/ e = TimeoutError msg ->
  exists st' : run_state,
    step process_fn (Complete i (Raises e)) st = Some st' /\
    fst (fetch (Raises e) b process_fn (run_worker st)) = inr tt /\
    error_log (run_worker st') = error_log (run_worker st) ++ ["block: " +:+ str_int b] /\
    stdout (run_worker st') =
      stdout (run_worker st) ++
      ["Issue with block " +:+ str_int b +:+ ":" +:+ newline +:+ msg +:+ newline] /\
    out_actions (run_worker st') = out_actions (run_worker st) /\
    raised st' = raised st /\
    tasks st' = <[i := (b, Finished (inr tt))]> (tasks st) /\
    (forall j : nat, j <> i -> tasks st' !! j = tasks st !! j).
Proof.
  intros Hi He. simpl. rewrite Hi.
  rewrite (fetch_network_error b (run_worker st) e msg He).
  eexists. split; [reflexivity|]. simpl.
  repeat split.
  - destruct (raised st); reflexivity.
  - intros j Hj. apply list_lookup_insert_ne. congruence.
Qed.
End Run.

Lemma in_flight_bounded_witness :
  exists st : run_state,
    exec process_block
         [Acquire 0%nat; Acquire 2%nat; Complete 0 (Raises (TimeoutError ""))]
         (init_run 2 [1; 2; 3] new_worker) = Some st /\
    (in_flight st <= 2)%nat.
Proof.
  eexists. split; [vm_compute; reflexivity|].
  refine (proj1 (in_flight_bounded process_block 2 [1; 2; 3] new_worker
                   [Acquire 0%nat; Acquire 2%nat; Complete 0 (Raises (TimeoutError ""))]
                   _ _)).
  vm_compute. reflexivity.
Defined.

Lemma network_error_skips_block_witness :
  tasks (RunState 255 [(7, InFlight); (8, Waiting)] new_worker None) !! 0%nat
    = Some (7, InFlight) /\
  exists st' : run_state,
    step process_block (Complete 0 (Raises (ClientError "connection reset")))
         (RunState 255 [(7, InFlight); (8, Waiting)] new_worker None) = Some st' /\
    error_log (run_worker st') = ["block: 7"] /\
    tasks st' = [(7, Finished (inr tt)); (8, Waiting)].
Proof.
  split; [reflexivity|].
  destruct (network_error_skips_block process_block
              (RunState 255 [(7, InFlight); (8, Waiting)] new_worker None)
              0 7 (ClientError "connection reset") "connection reset"
              ltac:(reflexivity) ltac:(left; reflexivity))
    as (st' & Hstep & _ & Hlog & _ & _ & _ & Htasks & _).
  exists st'. auto.
Defined.

(** C6 as stated fails: the line that the error log gets for block 7 is the
    same for two different errors, it holds the block number alone. *)
Lemma error_log_omits_the_error :
  error_log (snd (fetch (Raises (ClientError "connection reset")) 7 process_block
                        new_worker)) = ["block: 7"] /\
  error_log (snd (fetch (Raises (ClientError "server disconnected")) 7 process_block
                        new_worker)) = ["block: 7"].
Proof. split; reflexivity. Qed.

(** C5, as the code has it. When [process_block] raises on the payload of
    a block, [fetch] does not catch the exception: nothing is written to
    the error log and nothing is printed for the block, the exception is
    the one that [run] raises, and whatever the other tasks still do,
    [setup_process] ends with that exception and [helpers.bulk] is never
    called for the chunk. *)
Theorem normalization_error_aborts_chunk (block_range : list Z) (evs : list event)
    (i : nat) (body : pyval) (bulk : bulk_outcome) (st st' : run_state) (e : exn)
    (acts : list action) :
  exec process_block evs (init_run SEM_SIZE block_range new_worker) = Some st ->
  raised st = None ->
  process_block body (out_actions (run_worker st)) = (inl e, acts) ->
  step process_block (Complete i (Response body)) st = Some st' ->
  raised st' = Some e /\
  error_log (run_worker st') = error_log (run_worker st) /\
  stdout (run_worker st') = stdout (run_worker st) /\
  forall (evs' : list event) (st'' : run_state),
    exec process_block evs' st' = Some st'' ->
    setup_process block_range (evs ++ Complete i (Response body) :: evs') bulk =
      Some (inl e, run_worker st'') /\
    bulk_calls (run_worker st'') = [].
Proof.
  intros Hexec Hnone Hpb Hstep.
  pose proof (process_block_error _ _ _ _ Hpb) as Hnet.
  pose proof (step_complete _ _ _ _ _ Hstep) as (_ & _ & Hbulk & _).
  assert (raised st' = Some e /\
          error_log (run_worker st') = error_log (run_worker st) /\
          stdout (run_worker st') = stdout (run_worker st)) as (Hraised & Hlog & Hout).
  { pose proof Hstep as Hst'. simpl in Hst'.
    destruct (tasks st !! i) as [[b []]|]; try discriminate.
    rewrite (fetch_uncaught process_block body b _ e acts Hpb Hnet), Hnone in Hst'.
    injection Hst' as <-. auto. }
  split; [exact Hraised|]. split; [exact Hlog|]. split; [exact Hout|].
  intros evs' st'' Hexec'.
  pose proof (exec_invariant _ _ _ _ Hexec) as (_ & Hbulk0 & _).
  pose proof (exec_invariant _ _ _ _ Hexec') as (_ & Hbulk' & Hsticky).
  split.
  - unfold setup_process. rewrite exec_app, Hexec. cbn [exec].
    rewrite Hstep, Hexec'. simpl.
    unfold run_outcome. rewrite (Hsticky e Hraised). reflexivity.
  - rewrite Hbulk', Hbulk, Hbulk0. reflexivity.
Qed.

Lemma normalization_error_aborts_chunk_witness :
  exists st st' : run_state,
    exec process_block [Acquire 0%nat; Acquire 1%nat; Complete 1 (Response good_response_6)]
         (init_run SEM_SIZE [5; 6] new_worker) = Some st /\
    raised st = None /\
    process_block malformed_response_5 (out_actions (run_worker st)) =
      (inl (KeyError "transactions"), out_actions (run_worker st)) /\
    step process_block (Complete 0 (Response malformed_response_5)) st = Some st' /\
    raised st' = Some (KeyError "transactions") /\
    setup_process [5; 6]
      ([Acquire 0%nat; Acquire 1%nat; Complete 1 (Response good_response_6)] ++
       Complete 0 (Response malformed_response_5) :: []) BulkOk =
      Some (inl (KeyError "transactions"), run_worker st').
Proof.
  eexists _, _.
  split; [vm_compute; reflexivity|].
  split; [reflexivity|].
  split; [vm_compute; reflexivity|].
  split; [vm_compute; reflexivity|].
  match goal with
  | |- raised ?b = _ /\ setup_process _ (?evs ++ _ :: _) _ = Some (_, run_worker ?b) =>
      pose proof (normalization_error_aborts_chunk [5; 6] evs 0 malformed_response_5
                    BulkOk _ b (KeyError "transactions") _
                    ltac:(vm_compute; reflexivity) ltac:(reflexivity)
                    ltac:(vm_compute; reflexivity) ltac:(vm_compute; reflexivity))
        as (H1 & _ & _ & H2)
  end.
  split; [exact H1|].
  exact (proj1 (H2 [] _ eq_refl)).
Defined.

(** C5 as stated fails: block 6 is normalized, then the payload of block 5
    lacks its transactions; the worker ends with [KeyError], nothing is
    written to the error log and the bulk write is never called, so the
    document of block 6 is lost with it. *)
Lemma malformed_block_crashes_chunk :
  exists w : worker,
    fst (process_block malformed_response_5 []) = inl (KeyError "transactions") /\
    setup_process [5; 6]
      [Acquire 0%nat; Acquire 1%nat; Complete 1 (Response good_response_6);
       Complete 0 (Response malformed_response_5)] BulkOk =
      Some (inl (KeyError "transactions"), w) /\
    length (out_actions w) = 1%nat /\
    error_log w = [] /\
    bulk_calls w = [].
Proof.
  eexists. split; [vm_compute; reflexivity|].
  split; [vm_compute; reflexivity|].
  repeat split.
Qed.

(** * The committer *)

Lemma block_ids_filter (acts : list action) :
  block_ids (List.filter (is_type "b") acts) = block_ids acts.
Proof.
  induction acts as [|[id d|id d] acts IH]; simpl; [reflexivity|exact IH|].
  unfold block_ids in *. simpl. f_equal. exact IH.
Qed.


(** * The block-number input file *)

Lemma keep_line_spec (x : string) :
  keep_line x = true <->
  py_strip x <> "" /\ (String.length (py_strip x) <= 8)%nat.
Proof.
  unfold keep_line. rewrite andb_true_iff, negb_true_iff, Nat.leb_le.
  destruct (String.eqb_spec (py_strip x) ""); intuition congruence.
Qed.

Lemma read_block_list_drop (pre post : list string) (x : string) :
  keep_line x = false ->
  read_block_list (pre ++ x :: post) = read_block_list (pre ++ post).
Proof.
  intros Hx. induction pre as [|y pre IH]; simpl.
  - rewrite Hx. reflexivity.
  - rewrite IH. reflexivity.
Qed.

(** C10. When every line that is kept is a decimal number, the block list
    is read, and it holds one number for each line whose stripped content
    is not empty and at most 8 characters long, in the order of the file;
    a line whose stripped content is longer than 8 characters adds nothing
    and raises nothing: the list is the same without that line. *)
Theorem read_block_list_keeps_short_lines (CONTENT : list string) :
  Forall (fun x => keep_line x = true -> exists n : Z, py_int x = inr n) CONTENT ->
  exists block_list : list Z,
    read_block_list CONTENT = inr block_list /\
    Forall2 (fun x n => py_int x = inr n) (List.filter keep_line CONTENT) block_list /\
    (forall x : string,
        keep_line x = true <->
        py_strip x <> "" /\ (String.length (py_strip x) <= 8)%nat) /\
    (forall (pre post : list string) (x : string),
        CONTENT = pre ++ x :: post ->
        (8 < String.length (py_strip x))%nat ->
        read_block_list (pre ++ post) = inr block_list).
Proof.
  intros Hparse.
  assert (exists block_list : list Z,
             read_block_list CONTENT = inr block_list /\
             Forall2 (fun x n => py_int x = inr n) (List.filter keep_line CONTENT) block_list)
    as (block_list & Hread & Hall).
  { induction Hparse as [|x rest Hx _ (l & Hl & Hall)]; simpl.
    - exists []. split; [reflexivity|constructor].
    - destruct (keep_line x) eqn:Hkeep.
      + destruct (Hx eq_refl) as [n Hn]. rewrite Hn, Hl. simpl.
        exists (n :: l). split; [reflexivity|]. constructor; assumption.
      + exists l. split; assumption. }
  exists block_list. split; [exact Hread|]. split; [exact Hall|].
  split; [exact keep_line_spec|].
  intros pre post x -> Hlong.
  rewrite <- Hread. symmetry. apply read_block_list_drop.
  apply not_true_is_false. rewrite keep_line_spec. lia.
Qed.

Lemma read_block_list_keeps_short_lines_witness :
  Forall (fun x => keep_line x = true -> exists n : Z, py_int x = inr n)
         ["12" +:+ newline; newline; " 7 " +:+ newline; "123456789" +:+ newline] /\
  exists block_list : list Z,
    read_block_list ["12" +:+ newline; newline; " 7 " +:+ newline; "123456789" +:+ newline]
      = inr block_list /\
    read_block_list (["12" +:+ newline; newline; " 7 " +:+ newline] ++ [])
      = inr block_list.
Proof.
  assert (Forall (fun x => keep_line x = true -> exists n : Z, py_int x = inr n)
            ["12" +:+ newline; newline; " 7 " +:+ newline; "123456789" +:+ newline]) as H.
  { repeat constructor; intros Hkeep;
      first [discriminate Hkeep | eexists; vm_compute; reflexivity]. }
  split; [exact H|].
  destruct (read_block_list_keeps_short_lines _ H) as (bl & Hread & _ & _ & Hdrop).
  exists bl. split; [exact Hread|].
  apply (Hdrop ["12" +:+ newline; newline; " 7 " +:+ newline] []
               ("123456789" +:+ newline) eq_refl).
  vm_compute. lia.
Defined.

(** * More of the partitioner *)

Lemma chunk_length_bounds (lst : list Z) (C : Z) (cs : list (list Z)) (c : list Z) :
  0 < C ->
  chunks lst C = inr cs ->
  In c cs ->
  (1 <= length c)%nat /\ Z.of_nat (length c) <= C.
Proof.
  intros HC Hcs Hin. rewrite chunks_unfold in Hcs by exact HC.
  injection Hcs as <-. apply in_map_iff in Hin as (k & <- & Hk).
  apply in_seq in Hk.
  set (N := Z.of_nat (length lst)) in *.
  assert (C * ((N + C - 1) / C) <= N + C - 1) as Hlo by (apply Z.mul_div_le; lia).
  assert (0 <= (N + C - 1) / C) by (apply Z.div_pos; lia).
  assert (Z.of_nat k * C < N) as Hlt by nia.
  rewrite length_take, length_drop. unfold N in *. split; nia.
Qed.

(** X1. For a chunk size C > 0, [chunks] never yields an empty chunk, and
    no chunk is longer than C. *)
Theorem chunks_nonempty_bounded (lst : list Z) (C : Z) (cs : list (list Z)) (c : list Z) :
  0 < C ->
  chunks lst C = inr cs ->
  In c cs ->
  c <> [] /\ Z.of_nat (length c) <= C.
Proof.
  intros HC Hcs Hin.
  destruct (chunk_length_bounds lst C cs c HC Hcs Hin) as [Hne Hle].
  split; [|exact Hle]. intros ->. simpl in Hne. lia.
Qed.

Lemma chunks_nonempty_bounded_witness :
  0 < 2 /\ chunks [10; 11; 12] 2 = inr [[10; 11]; [12]] /\ In [12] [[10; 11]; [12]] /\
  [12] <> [] /\ Z.of_nat (length [12]) <= 2.
Proof.
  split; [lia|]. split; [reflexivity|]. split; [simpl; auto|].
  apply (chunks_nonempty_bounded [10; 11; 12] 2 [[10; 11]; [12]] [12]);
    [lia | reflexivity | simpl; auto].
Defined.

(** X2. For a chunk size C > 0, the item at place j of the chunk at place k
    is the item at place k * C + j of the list: the chunks are consecutive
    windows of the list, in its order. *)
Theorem chunks_lookup (lst : list Z) (C : Z) (cs : list (list Z)) (k j : nat) (c : list Z) :
  0 < C ->
  chunks lst C = inr cs ->
  cs !! k = Some c ->
  (j < length c)%nat ->
  c !! j = lst !! (k * Z.to_nat C + j)%nat.
Proof.
  intros HC Hcs Hk Hj. rewrite chunks_unfold in Hcs by exact HC.
  injection Hcs as <-. rewrite list_lookup_fmap in Hk.
  destruct (seq _ _ !! k) as [k'|] eqn:Hseq; [|discriminate].
  apply lookup_seq in Hseq as [-> _]. simpl in Hk. injection Hk as <-.
  rewrite length_take in Hj.
  rewrite lookup_take_lt by lia. apply lookup_drop.
Qed.

Lemma chunks_lookup_witness :
  0 < 2 /\ chunks [10; 11; 12] 2 = inr [[10; 11]; [12]] /\
  [[10; 11]; [12]] !! 1%nat = Some [12] /\ (0 < length [12])%nat /\
  [12] !! 0%nat = [10; 11; 12] !! (1 * Z.to_nat 2 + 0)%nat.
Proof.
  split; [lia|]. split; [reflexivity|]. split; [reflexivity|]. split; [simpl; lia|].
  apply (chunks_lookup [10; 11; 12] 2 [[10; 11]; [12]] 1 0 [12]);
    [lia | reflexivity | reflexivity | simpl; lia].
Defined.

(** * More of the normalizer *)

Lemma process_tx_prepend (acts : list action) (ts : datetime) (tx : pyval) (s : loop_state) :
  process_tx ts tx (prepend acts s) =
  match process_tx ts tx s with
  | inl e => inl e
  | inr s' => inr (prepend acts s')
  end.
Proof.
  unfold process_tx.
  repeat match goal with
         | |- context [rbind ?r _] => destruct r; simpl; [reflexivity|]
         end.
  unfold prepend. simpl. rewrite app_assoc. reflexivity.
Qed.

Lemma process_txs_prepend (acts : list action) (ts : datetime) (txs : list pyval) :
  forall s : loop_state,
    process_txs ts txs (prepend acts s) =
    (match fst (process_txs ts txs s) with
     | inl e => inl e
     | inr s' => inr (prepend acts s')
     end,
     acts ++ snd (process_txs ts txs s)).
Proof.
  induction txs as [|tx txs IH]; intros s; simpl; [reflexivity|].
  rewrite process_tx_prepend.
  destruct (process_tx ts tx s) as [e|s']; [reflexivity|apply IH].
Qed.

(** X3. [process_block] only appends to [actions]: what it appends and
    whether it raises do not depend on what the list held before. *)
Theorem process_block_appends (response : pyval) (acts : list action) :
  process_block response acts =
  (fst (process_block response []), acts ++ snd (process_block response [])).
Proof.
  unfold process_block.
  destruct (block_header response) as [e|[[[block txs] block_nb] ts]];
    [simpl; rewrite app_nil_r; reflexivity|].
  pose proof (process_txs_prepend acts ts txs
                {| tx_hashes := []; tx_value_sum := NInt 0; actions := [] |}) as H.
  unfold prepend in H. simpl in H. rewrite app_nil_r in H. rewrite H. clear H.
  destruct (process_txs ts txs {| tx_hashes := []; tx_value_sum := NInt 0; actions := [] |})
    as [[e|s] acts1]; simpl; [reflexivity|].
  destruct (block_document block block_nb ts _) as [e|doc]; simpl; [reflexivity|].
  rewrite app_assoc. reflexivity.
Qed.

Lemma block_header_complete (response block transactions raw_number raw_timestamp : pyval)
    (txs : list pyval) (block_nb timestamp : Z) (ts : datetime) :
  py_getitem response "result" = inr block ->
  py_getitem block "transactions" = inr transactions ->
  py_getitem block "number" = inr raw_number ->
  py_int0 raw_number = inr block_nb ->
  py_getitem block "timestamp" = inr raw_timestamp ->
  py_int0 raw_timestamp = inr timestamp ->
  fromtimestamp timestamp = inr ts ->
  py_iter transactions = inr txs ->
  block_header response = inr (block, txs, block_nb, ts).
Proof.
  intros H1 H2 H3 H4 H5 H6 H7 H8. unfold block_header.
  rewrite H1. simpl. rewrite H2. simpl. rewrite H3. simpl. rewrite H4. simpl.
  rewrite H5. simpl. rewrite H6. simpl. rewrite H7. simpl. rewrite H8. reflexivity.
Qed.

Lemma process_tx_total (ts : datetime) (tx : pyval) (s : loop_state) (o : tx_output) :
  tx_normalized ts tx o -> sum_ready s ->
  exists s' : loop_state, process_tx ts tx s = inr s'.
Proof.
  intros (raw_number & raw_value & number & wei & Hnb & Hint & Hval & Hwei & Hdiv
          & Hhash & _) Hready.
  apply py_getitem_dict in Hnb as (d & -> & Hnb).
  simpl in Hval, Hhash.
  destruct (d !! "value") as [v|] eqn:Ev; [|discriminate]. injection Hval as ->.
  destruct (d !! "hash") as [h|] eqn:Eh; [|discriminate]. injection Hhash as ->.
  unfold process_tx. simpl. rewrite Hnb. simpl. rewrite Hint. simpl.
  rewrite !lookup_insert_ne by done. rewrite Ev. simpl. rewrite Hwei. simpl.
  rewrite Hdiv. simpl.
  assert (exists acc, py_add (tx_value_sum s) (out_value o) = inr acc) as [acc ->].
  { destruct Hready as [-> | [a ->]]; simpl; eauto. }
  simpl. rewrite !lookup_insert_ne by done. rewrite Eh. simpl. eauto.
Qed.

Lemma process_tx_ready (ts : datetime) (tx : pyval) (s s' : loop_state) :
  process_tx ts tx s = inr s' -> sum_ready s'.
Proof.
  intros H. apply process_tx_spec in H as (o & _ & _ & _ & Hsum).
  right. unfold py_add in Hsum. destruct (tx_value_sum s).
  - destruct (Float.of_int n); simpl in Hsum; [discriminate|].
    injection Hsum as <-. eauto.
  - injection Hsum as <-. eauto.
Qed.

Lemma process_txs_failure_point (ts : datetime) (txs : list pyval) :
  forall (s : loop_state) (e : exn) (acts : list action),
    process_txs ts txs s = (inl e, acts) ->
    sum_ready s ->
    exists outs : list tx_output,
      acts = actions s ++ map tx_action outs /\
      Forall2 (tx_normalized ts) (take (length outs) txs) outs /\
      exists tx : pyval,
        txs !! length outs = Some tx /\ ~ exists o, tx_normalized ts tx o.
Proof.
  induction txs as [|tx txs IH]; intros s e acts H Hready; simpl in H; [discriminate|].
  destruct (process_tx ts tx s) as [e'|s1] eqn:Htx.
  - injection H as _ <-. exists []. simpl. rewrite app_nil_r.
    split; [reflexivity|]. split; [constructor|].
    exists tx. split; [reflexivity|]. intros [o Ho].
    destruct (process_tx_total ts tx s o Ho Hready) as [s' Hs']. congruence.
  - pose proof (process_tx_ready _ _ _ _ Htx) as Hready1.
    apply process_tx_spec in Htx as (o & Hnorm & _ & Ha & _).
    destruct (IH _ _ _ H Hready1) as (outs & -> & Hall & tx' & Hlook & Hbad).
    exists (o :: outs). rewrite Ha, <- app_assoc. simpl.
    split; [reflexivity|]. split; [constructor; assumption|].
    exists tx'. auto.
Qed.

(** X4. When [process_block] raises after the statements before the loop
    went through, what it has appended are the documents of the
    transactions that come before the first one that cannot be
    normalized, in order and each normalized, and nothing else: they
    stay in [actions], and no block document is appended. When every
    transaction was normalized and a field of the block itself failed,
    the documents of all transactions stay. *)
Theorem process_block_failure_keeps_transactions
    (response block transactions raw_number raw_timestamp : pyval) (txs : list pyval)
    (block_nb timestamp : Z) (ts : datetime) (acts0 acts : list action) (e : exn) :
  py_getitem response "result" = inr block ->
  py_getitem block "transactions" = inr transactions ->
  py_getitem block "number" = inr raw_number ->
  py_int0 raw_number = inr block_nb ->
  py_getitem block "timestamp" = inr raw_timestamp ->
  py_int0 raw_timestamp = inr timestamp ->
  fromtimestamp timestamp = inr ts ->
  py_iter transactions = inr txs ->
  process_block response acts0 = (inl e, acts) ->
  exists outs : list tx_output,
    acts = acts0 ++ map tx_action outs /\
    (length outs <= length txs)%nat /\
    Forall2 (tx_normalized ts) (take (length outs) txs) outs /\
    forall tx : pyval,
      txs !! length outs = Some tx -> ~ exists o, tx_normalized ts tx o.
Proof.
  intros H1 H2 H3 H4 H5 H6 H7 H8 H. unfold process_block in H.
  rewrite (block_header_complete _ _ _ _ _ _ _ _ _ H1 H2 H3 H4 H5 H6 H7 H8) in H.
  destruct (process_txs ts txs _) as [[e'|s] acts1] eqn:Hloop.
  - injection H as _ <-.
    apply process_txs_failure_point in Hloop as (outs & -> & Hall & tx & Hlook & Hbad);
      [|left; reflexivity].
    exists outs. split; [reflexivity|].
    split; [apply lookup_lt_Some in Hlook; lia|]. split; [exact Hall|].
    intros tx' Hlook'. rewrite Hlook in Hlook'. injection Hlook' as <-. exact Hbad.
  - apply process_txs_spec in Hloop as (-> & outs & Hall & _ & Ha & _). simpl in Ha.
    destruct (block_document block block_nb ts s); [|discriminate].
    injection H as _ <-. exists outs.
    pose proof (Forall2_length _ _ _ Hall) as Hlen.
    split; [exact Ha|]. split; [lia|].
    rewrite <- Hlen, firstn_all. split; [exact Hall|].
    intros tx Hlook. apply lookup_lt_Some in Hlook. lia.
Qed.

Lemma process_block_failure_keeps_transactions_witness :
  process_block two_tx_response [] =
    (inl (KeyError "value"), [TxAction (PStr "0xaa") sample_tx_document]) /\
  exists outs : list tx_output,
    [TxAction (PStr "0xaa") sample_tx_document] = [] ++ map tx_action outs /\
    Forall2 (tx_normalized (Datetime 100000000))
            (take (length outs)
               [sample_tx;
                PDict (<["hash" := PStr "0xbb"]> (<["blockNumber" := PStr "0x64"]> ∅))])
            outs.
Proof.
  split; [vm_compute; reflexivity|].
  destruct (process_block_failure_keeps_transactions
              two_tx_response _ _ _ _
              [sample_tx;
               PDict (<["hash" := PStr "0xbb"]> (<["blockNumber" := PStr "0x64"]> ∅))]
              100 100000000 (Datetime 100000000) []
              [TxAction (PStr "0xaa") sample_tx_document] (KeyError "value")
              ltac:(vm_compute; reflexivity) ltac:(vm_compute; reflexivity)
              ltac:(vm_compute; reflexivity) ltac:(vm_compute; reflexivity)
              ltac:(vm_compute; reflexivity) ltac:(vm_compute; reflexivity)
              ltac:(vm_compute; reflexivity) ltac:(vm_compute; reflexivity)
              ltac:(vm_compute; reflexivity))
    as (outs & Hacts & _ & Hall & _).
  exists outs. split; assumption.
Defined.

(** X5. When the [result] of the answer is not an object, as the null that
    a node sends for a block it does not have, [process_block] raises
    [TypeError] and leaves [actions] as it was. *)
Theorem process_block_result_not_dict (response v : pyval) (acts : list action) :
  py_getitem response "result" = inr v ->
  (forall d : gmap string pyval, v <> PDict d) ->
  process_block response acts = (inl TypeError, acts).
Proof.
  intros Hres Hv. unfold process_block, block_header. rewrite Hres. simpl.
  destruct v; try reflexivity. destruct (Hv d). reflexivity.
Qed.

Lemma process_block_result_not_dict_witness :
  py_getitem (PDict (<["result" := PNone]> ∅)) "result" = inr PNone /\
  (forall d : gmap string pyval, PNone <> PDict d) /\
  process_block (PDict (<["result" := PNone]> ∅)) [] = (inl TypeError, []).
Proof.
  split; [reflexivity|]. split; [discriminate|].
  apply (process_block_result_not_dict _ PNone); [reflexivity|discriminate].
Defined.

(** X6. A block without transactions is normalized to one block document
    and nothing else, with an empty [transactions] list,
    [transactionCount] 0 and [txValueSum] the [int] 0. *)
Theorem process_block_no_transactions (response block transactions : pyval)
    (acts acts' : list action) :
  py_getitem response "result" = inr block ->
  py_getitem block "transactions" = inr transactions ->
  py_iter transactions = inr [] ->
  process_block response acts = (inr tt, acts') ->
  exists (block_nb : Z) (doc : pyval),
    acts' = acts ++ [BlockAction block_nb doc] /\
    py_getitem doc "transactions" = inr (PList []) /\
    py_getitem doc "transactionCount" = inr (PInt 0) /\
    py_getitem doc "txValueSum" = inr (PInt 0).
Proof.
  intros Hres Htxs Hiter H. unfold process_block in H.
  destruct (block_header response) as [e|[[[block' txs] block_nb] ts]] eqn:Hhead;
    [discriminate|].
  apply block_header_spec in Hhead
    as (transactions' & _ & _ & _ & Hres' & Htxs' & Hiter' & _).
  rewrite Hres in Hres'. injection Hres' as <-.
  rewrite Htxs in Htxs'. injection Htxs' as <-.
  rewrite Hiter in Hiter'. injection Hiter' as <-.
  simpl in H.
  destruct (block_document block block_nb ts _) as [e|doc] eqn:Hdoc; [discriminate|].
  injection H as <-.
  apply block_document_spec in Hdoc as (Ht & _ & _ & Hc & Hs). simpl in *.
  exists block_nb, doc. auto.
Qed.

Lemma process_block_no_transactions_witness :
  py_iter (PList []) = inr [] /\
  exists (block_nb : Z) (doc : pyval),
    snd (process_block good_response_6 []) = [] ++ [BlockAction block_nb doc] /\
    py_getitem doc "txValueSum" = inr (PInt 0).
Proof.
  split; [reflexivity|].
  destruct (process_block_no_transactions good_response_6 _ (PList []) [] _
              ltac:(vm_compute; reflexivity) ltac:(vm_compute; reflexivity)
              ltac:(reflexivity) ltac:(vm_compute; reflexivity))
    as (nb & doc & Hacts & _ & _ & Hsum).
  exists nb, doc. split; [|exact Hsum].
  rewrite <- Hacts. reflexivity.
Defined.

Lemma process_txs_rel (R : pyval -> tx_output -> Prop) (ts : datetime) :
  (forall tx s s', process_tx ts tx s = inr s' ->
                   exists o, R tx o /\ actions s' = actions s ++ [tx_action o]) ->
  forall txs s s' acts,
    process_txs ts txs s = (inr s', acts) ->
    exists outs : list tx_output,
      Forall2 R txs outs /\ actions s' = actions s ++ map tx_action outs.
Proof.
  intros Hbody. induction txs as [|tx txs IH]; intros s s' acts H; simpl in H.
  - injection H as <- _. exists []. simpl. rewrite app_nil_r. split; [constructor|reflexivity].
  - destruct (process_tx ts tx s) as [e|s1] eqn:Htx; [discriminate|].
    apply Hbody in Htx as (o & Ho & Ha).
    apply IH in H as (outs & Hall & Ha').
    exists (o :: outs). split; [constructor; assumption|].
    rewrite Ha', Ha, <- app_assoc. reflexivity.
Qed.

Lemma process_tx_passthrough (ts : datetime) (tx : pyval) (s s' : loop_state) :
  process_tx ts tx s = inr s' ->
  exists o : tx_output,
    passes_through TX_KEYS tx (out_document o) /\
    actions s' = actions s ++ [tx_action o].
Proof.
  unfold process_tx. intros H.
  bind_inv H. apply py_getitem_dict in E as (d & -> & Hnb).
  repeat bind_inv H. injection H as <-.
  match goal with
  | |- context [TxAction ?h ?doc] => exists (TxOutput h doc Float.one)
  end.
  split; [|reflexivity].
  intros k Hk. simpl in Hk. simpl.
  rewrite !lookup_insert_ne by (intros <-; tauto). reflexivity.
Qed.

Lemma block_document_passthrough (block : pyval) (block_nb : Z) (ts : datetime)
    (s : loop_state) (doc : pyval) :
  block_document block block_nb ts s = inr doc ->
  passes_through BLOCK_KEYS block doc.
Proof.
  unfold block_document. intros H.
  destruct block; try discriminate H. simpl in H.
  repeat (match type of H with
          | context [match ?x with Some _ => _ | None => _ end] =>
              destruct x; simpl in H; [|discriminate H]
          end; bind_inv H).
  injection H as <-. intros k Hk. simpl in Hk. simpl.
  rewrite !lookup_insert_ne by (intros <-; tauto). reflexivity.
Qed.

(** X7. [process_block] passes through what it does not compute: the block
    document keeps every field of the raw block outside [BLOCK_KEYS], and
    each transaction document keeps every field of its raw transaction
    outside [TX_KEYS], the hash among them. *)
Theorem process_block_passes_fields_through (response : pyval) (acts0 acts : list action) :
  process_block response acts0 = (inr tt, acts) ->
  exists (block transactions : pyval) (txs : list pyval) (outs : list tx_output)
         (block_nb : Z) (doc : pyval),
    py_getitem response "result" = inr block /\
    py_getitem block "transactions" = inr transactions /\
    py_iter transactions = inr txs /\
    acts = acts0 ++ map tx_action outs ++ [BlockAction block_nb doc] /\
    passes_through BLOCK_KEYS block doc /\
    Forall2 (passes_through TX_KEYS) txs (map out_document outs).
Proof.
  unfold process_block. intros H.
  destruct (block_header response) as [e|[[[block txs] block_nb] ts]] eqn:Hhead;
    [discriminate|].
  apply block_header_spec in Hhead
    as (transactions & _ & _ & _ & Hres & Htxs & Hiter & _).
  destruct (process_txs ts txs _) as [[e|s] acts1] eqn:Hloop; [discriminate|].
  pose proof (process_txs_spec _ _ _ _ _ Hloop) as (-> & _).
  apply (process_txs_rel (fun tx o => passes_through TX_KEYS tx (out_document o)))
    in Hloop as (outs & Hall & Ha); [|exact (process_tx_passthrough ts)].
  simpl in Ha.
  destruct (block_document block block_nb ts s) as [e|doc] eqn:Hdoc; [discriminate|].
  injection H as <-.
  apply block_document_passthrough in Hdoc.
  exists block, transactions, txs, outs, block_nb, doc.
  rewrite Ha, <- app_assoc. repeat split; try assumption.
  clear -Hall. induction Hall; constructor; assumption.
Qed.

Lemma process_block_passes_fields_through_witness :
  process_block sample_response [] =
    (inr tt, [TxAction (PStr "0xaa") sample_tx_document;
              BlockAction 100 sample_block_document]) /\
  exists (block : pyval) (doc : pyval),
    py_getitem sample_response "result" = inr block /\
    passes_through BLOCK_KEYS block doc.
Proof.
  split; [vm_compute; reflexivity|].
  destruct (process_block_passes_fields_through sample_response [] _
              ltac:(vm_compute; reflexivity))
    as (block & _ & _ & _ & _ & doc & Hres & _ & _ & _ & Hpass & _).
  exists block, doc. auto.
Defined.

(** * More of the fetcher *)

Section Schedules.
Variable process_fn : process_fn_type.

Lemma step_blocks ev st st' :
  step process_fn ev st = Some st' -> map fst (tasks st') = map fst (tasks st).
Proof.
  assert (forall i b t t', tasks st !! i = Some (b, t) ->
            map fst (<[i := (b, t')]> (tasks st)) = map fst (tasks st)) as Hins.
  { intros i b t t' Hi. change (fst <$> <[i:=(b, t')]> (tasks st) = fst <$> tasks st).
    rewrite list_fmap_insert. apply list_insert_id.
    rewrite list_lookup_fmap, Hi. reflexivity. }
  destruct ev as [i|i o]; simpl.
  - destruct (tasks st !! i) as [[b []]|] eqn:Hi; try discriminate.
    unfold sem_acquire. destruct (sem_value st); [discriminate|].
    simpl. intros [= <-]. simpl. eapply Hins, Hi.
  - destruct (tasks st !! i) as [[b []]|] eqn:Hi; try discriminate.
    destruct (fetch o b process_fn (run_worker st)) as [r w].
    intros [= <-]. simpl. eapply Hins, Hi.
Qed.

Lemma exec_blocks evs :
  forall st st', exec process_fn evs st = Some st' ->
                 map fst (tasks st') = map fst (tasks st).
Proof.
  induction evs as [|ev evs IH]; intros st st' H; simpl in H.
  - injection H as <-. reflexivity.
  - destruct (step process_fn ev st) as [st1|] eqn:Hstep; [|discriminate].
    rewrite (IH _ _ H). eapply step_blocks, Hstep.
Qed.

Lemma exec_init_blocks sem_size block_range w evs st :
  exec process_fn evs (init_run sem_size block_range w) = Some st ->
  map fst (tasks st) = block_range.
Proof.
  intros H. rewrite (exec_blocks _ _ _ H). simpl.
  rewrite map_map. simpl. apply map_id.
Qed.

Lemma filter_length_le {A} (f : A -> bool) (l : list A) :
  (length (List.filter f l) <= length l)%nat.
Proof. induction l as [|a l IH]; simpl; [lia|]. destruct (f a); simpl; lia. Qed.

Lemma exec_sem_value sem_size block_range w evs st :
  exec process_fn evs (init_run sem_size block_range w) = Some st ->
  (sem_value st + length block_range >= sem_size)%nat /\
  (in_flight st + sem_value st = sem_size)%nat.
Proof.
  intros H. pose proof (exec_init_blocks _ _ _ _ _ H) as Hb.
  apply exec_invariant in H as (Hn & _). rewrite in_flight_init in Hn. simpl in Hn.
  pose proof (filter_length_le is_in_flight (tasks st)) as Hle.
  fold (in_flight st) in Hle.
  apply (f_equal length) in Hb. rewrite length_map in Hb. lia.
Qed.

Lemma acquire_enabled st i b :
  tasks st !! i = Some (b, Waiting) ->
  (0 < sem_value st)%nat ->
  exists st', step process_fn (Acquire i) st = Some st'.
Proof.
  intros Hi Hsem. simpl. rewrite Hi. unfold sem_acquire.
  destruct (sem_value st); [lia|]. simpl. eauto.
Qed.

Lemma complete_enabled st i b o :
  tasks st !! i = Some (b, InFlight) ->
  exists st', step process_fn (Complete i o) st = Some st'.
Proof.
  intros Hi. simpl. rewrite Hi.
  destruct (fetch o b process_fn (run_worker st)). eauto.
Qed.

Lemma unfinished_task (l : list (Z * task_state)) :
  forallb is_finished l = false ->
  exists i b t, l !! i = Some (b, t) /\ is_finished (b, t) = false.
Proof.
  induction l as [|[b t] l IH]; simpl; [discriminate|].
  destruct (is_finished (b, t)) eqn:Hf; simpl.
  - intros H. destruct (IH H) as (i & b' & t' & Hi & Hf'). exists (S i), b', t'. auto.
  - intros _. exists O, b, t. auto.
Qed.

Lemma in_flight_task (l : list (Z * task_state)) :
  (0 < length (List.filter is_in_flight l))%nat ->
  exists i b, l !! i = Some (b, InFlight).
Proof.
  induction l as [|[b t] l IH]; simpl; [lia|].
  destruct t; simpl; try (intros H; destruct (IH H) as (i & b' & Hi); exists (S i), b'; exact Hi).
  intros _. exists O, b. reflexivity.
Qed.

(** X8. With a semaphore of size 1 or more, [run] cannot get stuck: in
    every state it can reach where a task is not done, some task can take
    a slot, or some task can end whatever the network answers. *)
Theorem run_no_deadlock (sem_size : nat) (block_range : list Z) (w : worker)
    (evs : list event) (st : run_state) :
  (1 <= sem_size)%nat ->
  exec process_fn evs (init_run sem_size block_range w) = Some st ->
  forallb is_finished (tasks st) = false ->
  exists i : nat,
    (exists st', step process_fn (Acquire i) st = Some st') \/
    (forall o, exists st', step process_fn (Complete i o) st = Some st').
Proof.
  intros Hsize Hexec Hrest.
  apply exec_sem_value in Hexec as (_ & Hinv).
  destruct (Nat.eq_dec (in_flight st) 0%nat) as [Hz|Hnz].
  - apply unfinished_task in Hrest as (i & b & t & Hi & Hf).
    exists i. left. destruct t; try discriminate Hf.
    + eapply acquire_enabled; [exact Hi|lia].
    + exfalso. unfold in_flight in Hz.
      apply list_elem_of_lookup_2 in Hi. apply list_elem_of_In in Hi.
      assert (In (b, InFlight) (List.filter is_in_flight (tasks st))) as Hin
        by (apply filter_In; auto).
      destruct (List.filter is_in_flight (tasks st)); [destruct Hin|discriminate].
  - destruct (in_flight_task (tasks st)) as (i & b & Hi); [unfold in_flight in Hnz; lia|].
    exists i. right. intros o. eapply complete_enabled, Hi.
Qed.

(** X9. For the chunks that [chunks] makes with [CHUNK_SIZE], the semaphore
    of [SEM_SIZE] slots never runs out: at least 6 slots are free in every
    state that [run] can reach, so a waiting task can always enter. *)
Theorem chunk_never_waits (lst : list Z) (cs : list (list Z)) (c : list Z) (w : worker)
    (evs : list event) (st : run_state) :
  chunks lst CHUNK_SIZE = inr cs ->
  In c cs ->
  exec process_fn evs (init_run SEM_SIZE c w) = Some st ->
  (6 <= sem_value st)%nat /\
  forall (i : nat) (b : Z),
    tasks st !! i = Some (b, Waiting) ->
    exists st', step process_fn (Acquire i) st = Some st'.
Proof.
  intros Hcs Hin Hexec.
  destruct (chunk_length_bounds lst CHUNK_SIZE cs c ltac:(reflexivity) Hcs Hin) as [_ Hlen].
  apply exec_sem_value in Hexec as (Hsem & _).
  unfold CHUNK_SIZE, SEM_SIZE in *.
  assert (6 <= sem_value st)%nat as H6 by lia.
  split; [exact H6|]. intros i b Hi. eapply acquire_enabled; [exact Hi|lia].
Qed.

Lemma sequential_completes_from (outcomes : list post_outcome) :
  forall (done : list (Z * task_state)) (rest : list Z) (n : nat) (w : worker)
         (r : option exn),
    length outcomes = length rest ->
    forallb is_finished done = true ->
    exists st,
      exec process_fn (sequential (length done) outcomes)
           {| sem_value := S n; tasks := done ++ map (fun b => (b, Waiting)) rest;
              run_worker := w; raised := r |} = Some st /\
      forallb is_finished (tasks st) = true /\
      sem_value st = S n.
Proof.
  induction outcomes as [|o outcomes IH]; intros done rest n w r Hlen Hdone.
  - destruct rest; [|discriminate]. simpl. rewrite app_nil_r. eauto.
  - destruct rest as [|b rest]; [discriminate|]. injection Hlen as Hlen.
    cbn [sequential exec map].
    assert ((done ++ (b, Waiting) :: map (fun b => (b, Waiting)) rest) !! length done
            = Some (b, Waiting)) as Hi by (apply list_lookup_middle; reflexivity).
    cbn [step tasks]. rewrite Hi. cbn [sem_acquire sem_value fmap option_fmap option_map].
    unfold set_task. cbn [tasks sem_value run_worker raised].
    rewrite insert_app_r_alt by lia. rewrite Nat.sub_diag. cbn [insert list_insert].
    assert ((done ++ (b, InFlight) :: map (fun b => (b, Waiting)) rest) !! length done
            = Some (b, InFlight)) as Hi' by (apply list_lookup_middle; reflexivity).
    rewrite Hi'. cbn [run_worker].
    destruct (fetch o b process_fn w) as [res w'].
    unfold sem_release, set_task. cbn [tasks sem_value run_worker raised].
    rewrite insert_app_r_alt by lia. rewrite Nat.sub_diag. cbn [insert list_insert].
    assert (forallb is_finished (done ++ [(b, Finished res)]) = true) as Hdone'
      by (rewrite forallb_app, Hdone; reflexivity).
    specialize (IH (done ++ [(b, Finished res)]) rest n w'
                   (match r with Some e => Some e | None =>
                      match res with inl e => Some e | inr _ => None end end) Hlen Hdone').
    rewrite length_app, Nat.add_1_r, <- app_assoc in IH. simpl in IH.
    destruct IH as (st & Hexec & Hfin & Hsem).
    exists st. split; [|auto].
    rewrite <- Hexec. destruct r, res; reflexivity.
Qed.

(** X10. For every chunk and every answer of the network to each of its
    blocks, the schedule that runs the tasks one after the other brings
    [run] to its end: every task is done and [gather] has an outcome. *)
Theorem run_sequential_completes (sem_size : nat) (block_range : list Z) (w : worker)
    (outcomes : list post_outcome) :
  (1 <= sem_size)%nat ->
  length outcomes = length block_range ->
  exists st : run_state,
    exec process_fn (sequential 0 outcomes) (init_run sem_size block_range w) = Some st /\
    forallb is_finished (tasks st) = true /\
    run_outcome st <> None.
Proof.
  intros Hsize Hlen. destruct sem_size as [|n]; [lia|].
  destruct (sequential_completes_from outcomes [] block_range n w None Hlen eq_refl)
    as (st & Hexec & Hfin & _).
  exists st. split; [exact Hexec|]. split; [exact Hfin|].
  unfold run_outcome. rewrite Hfin. destruct (raised st); discriminate.
Qed.
End Schedules.

Lemma run_no_deadlock_witness :
  (1 <= 1)%nat /\
  exec process_block [Acquire 0%nat] (init_run 1 [1; 2] new_worker)
    = Some (RunState 0 [(1, InFlight); (2, Waiting)] new_worker None) /\
  exists i : nat,
    (exists st', step process_block (Acquire i)
                   (RunState 0 [(1, InFlight); (2, Waiting)] new_worker None) = Some st') \/
    (forall o, exists st', step process_block (Complete i o)
                   (RunState 0 [(1, InFlight); (2, Waiting)] new_worker None) = Some st').
Proof.
  split; [lia|]. split; [reflexivity|].
  apply (run_no_deadlock process_block 1 [1; 2] new_worker [Acquire 0%nat]);
    [lia | reflexivity | reflexivity].
Defined.

Lemma chunk_never_waits_witness :
  chunks [1; 2; 3] CHUNK_SIZE = inr [[1; 2; 3]] /\
  In [1; 2; 3] [[1; 2; 3]] /\
  exec process_block [Acquire 1%nat] (init_run SEM_SIZE [1; 2; 3] new_worker)
    = Some (RunState 255 [(1, Waiting); (2, InFlight); (3, Waiting)] new_worker None) /\
  (6 <= 255)%nat.
Proof.
  split; [reflexivity|]. split; [simpl; auto|]. split; [reflexivity|].
  exact (proj1 (chunk_never_waits process_block [1; 2; 3] [[1; 2; 3]] [1; 2; 3] new_worker
                  [Acquire 1%nat]
                  (RunState 255 [(1, Waiting); (2, InFlight); (3, Waiting)] new_worker None)
                  ltac:(reflexivity) ltac:(simpl; auto) ltac:(reflexivity))).
Defined.

Lemma run_sequential_completes_witness :
  (1 <= 1)%nat /\
  length [Raises (TimeoutError ""); Response good_response_6] = length [5; 6] /\
  exists st : run_state,
    exec process_block
         (sequential 0 [Raises (TimeoutError ""); Response good_response_6])
         (init_run 1 [5; 6] new_worker) = Some st /\
    forallb is_finished (tasks st) = true /\
    run_outcome st <> None.
Proof.
  split; [lia|]. split; [reflexivity|].
  apply (run_sequential_completes process_block 1 [5; 6] new_worker
           [Raises (TimeoutError ""); Response good_response_6]); [lia|reflexivity].
Defined.

Lemma block_ids_app (a b : list action) :
  block_ids (a ++ b) = block_ids a ++ block_ids b.
Proof. unfold block_ids. apply omap_app. Qed.

Lemma block_ids_tx_actions (outs : list tx_output) :
  block_ids (map tx_action outs) = [].
Proof. induction outs as [|o outs IH]; [reflexivity|exact IH]. Qed.

Lemma process_block_success_shape (response : pyval) (acts0 acts : list action) :
  process_block response acts0 = (inr tt, acts) ->
  exists (outs : list tx_output) (block_nb : Z) (doc : pyval),
    acts = acts0 ++ map tx_action outs ++ [BlockAction block_nb doc].
Proof.
  unfold process_block. intros H.
  destruct (block_header response) as [e|[[[block txs] block_nb] ts]]; [discriminate|].
  destruct (process_txs ts txs _) as [[e|s] acts1] eqn:Hloop; [discriminate|].
  apply process_txs_spec in Hloop as (-> & outs & _ & _ & Ha & _). simpl in Ha.
  destruct (block_document block block_nb ts s) as [e|doc]; [discriminate|].
  injection H as <-. exists outs, block_nb, doc. rewrite Ha, <- app_assoc. reflexivity.
Qed.

Lemma fetch_returns (o : post_outcome) (b : Z) (w w' : worker) :
  fetch o b process_block w = (inr tt, w') ->
  bulk_calls w' = bulk_calls w /\
  ((exists (outs : list tx_output) (block_nb : Z) (doc : pyval),
       out_actions w' = out_actions w ++ map tx_action outs ++ [BlockAction block_nb doc] /\
       error_log w' = error_log w) \/
   (out_actions w' = out_actions w /\
    error_log w' = error_log w ++ ["block: " +:+ str_int b])).
Proof.
  unfold fetch. destruct o as [body|e].
  - destruct (process_block body (out_actions w)) as [[e|[]] acts] eqn:Hpb.
    + pose proof (process_block_error _ _ _ _ Hpb) as Hnet.
      destruct e; try discriminate.
    + intros [= <-]. simpl. split; [reflexivity|]. left.
      apply process_block_success_shape in Hpb as (outs & nb & doc & ->). eauto.
  - destruct e; try discriminate; intros [= <-]; simpl; auto.
Qed.

Lemma step_accounted (ev : event) (st st' : run_state) :
  step process_block ev st = Some st' ->
  raised st' = None ->
  accounted st -> accounted st'.
Proof.
  unfold accounted, finished_count. destruct ev as [i|i o]; simpl.
  - destruct (tasks st !! i) as [[b []]|] eqn:Hi; try discriminate.
    unfold sem_acquire. destruct (sem_value st); [discriminate|].
    simpl. intros [= <-] _. simpl.
    pose proof (count_insert is_finished (tasks st) i (b, InFlight) _ Hi) as Hc.
    simpl in Hc. rewrite Nat.add_0_r in Hc. rewrite Hc. rewrite Nat.add_0_r. tauto.
  - destruct (tasks st !! i) as [[b []]|] eqn:Hi; try discriminate.
    destruct (fetch o b process_block (run_worker st)) as [r w] eqn:Hfetch.
    intros [= <-]. simpl. intros Hraised [Hcount Hblocks].
    pose proof (count_insert is_finished (tasks st) i (b, Finished r) _ Hi) as Hc.
    simpl in Hc.
    destruct r as [e|[]]; [destruct (raised st); discriminate|].
    apply fetch_returns in Hfetch as (_ & [(outs & nb & doc & -> & ->)|(-> & ->)]).
    + rewrite !block_ids_app, block_ids_tx_actions, !length_app. simpl.
      split; [lia|]. intros Hnil. apply app_eq_nil in Hnil as [_ Hnil]. discriminate.
    + rewrite length_app. simpl. split; [lia|exact Hblocks].
Qed.

Lemma exec_accounted (evs : list event) :
  forall st st' : run_state,
    exec process_block evs st = Some st' ->
    raised st' = None ->
    accounted st -> accounted st'.
Proof.
  induction evs as [|ev evs IH]; intros st st' H Hraised Hacc; simpl in H.
  - injection H as <-. exact Hacc.
  - destruct (step process_block ev st) as [st1|] eqn:Hstep; [|discriminate].
    assert (raised st1 = None) as Hr1.
    { destruct (raised st1) as [e|] eqn:Hr; [|reflexivity].
      apply exec_invariant in H as (_ & _ & Hsticky).
      rewrite (Hsticky e Hr) in Hraised. discriminate. }
    eapply IH; [exact H|exact Hraised|]. eapply step_accounted; eassumption.
Qed.

Lemma accounted_init (sem_size : nat) (block_range : list Z) :
  accounted (init_run sem_size block_range new_worker).
Proof.
  unfold accounted, finished_count. simpl. split; [|reflexivity].
  induction block_range as [|b l IH]; [reflexivity|exact IH].
Qed.

Lemma run_outcome_normal (st : run_state) :
  run_outcome st = Some (inr tt) ->
  raised st = None /\ finished_count st = length (tasks st).
Proof.
  unfold run_outcome, finished_count. destruct (raised st); [discriminate|].
  destruct (forallb is_finished (tasks st)) eqn:Hall; [|discriminate].
  intros _. split; [reflexivity|].
  induction (tasks st) as [|t l IH]; [reflexivity|]. simpl in *.
  apply andb_true_iff in Hall as [-> Hall]. simpl. rewrite (IH Hall). reflexivity.
Qed.

(** X11. When [run] ends without an exception, every block of the chunk is
    accounted for: the lines of the error log and the block documents of
    the actions are together as many as the blocks of the chunk. *)
Theorem run_accounts_for_every_block (block_range : list Z) (evs : list event)
    (st : run_state) :
  exec process_block evs (init_run SEM_SIZE block_range new_worker) = Some st ->
  run_outcome st = Some (inr tt) ->
  (length (error_log (run_worker st)) +
   length (block_ids (out_actions (run_worker st))) = length block_range)%nat.
Proof.
  intros Hexec Hend. apply run_outcome_normal in Hend as [Hraised Hfin].
  pose proof (exec_accounted _ _ _ Hexec Hraised (accounted_init _ _)) as [Hcount _].
  rewrite Hcount, Hfin.
  apply exec_init_blocks in Hexec. apply (f_equal length) in Hexec.
  rewrite length_map in Hexec. exact Hexec.
Qed.

Lemma run_accounts_for_every_block_witness :
  exists st : run_state,
    exec process_block
         [Acquire 0%nat; Acquire 1%nat; Complete 1 (Response good_response_6);
          Complete 0 (Raises (TimeoutError ""))]
         (init_run SEM_SIZE [5; 6] new_worker) = Some st /\
    run_outcome st = Some (inr tt) /\
    (length (error_log (run_worker st)) +
     length (block_ids (out_actions (run_worker st))) = length [5; 6])%nat.
Proof.
  eexists. split; [vm_compute; reflexivity|]. split; [vm_compute; reflexivity|].
  apply (run_accounts_for_every_block [5; 6]
           [Acquire 0%nat; Acquire 1%nat; Complete 1 (Response good_response_6);
            Complete 0 (Raises (TimeoutError ""))]);
    vm_compute; reflexivity.
Defined.

Lemma py_max_spec (x : Z) (l : list Z) :
  exists top : Z, py_max (x :: l) = inr top /\ In top (x :: l) /\
                  forall y, In y (x :: l) -> y <= top.
Proof.
  simpl. exists (fold_left Z.max l x). split; [reflexivity|].
  revert x. induction l as [|a l IH]; intros x; simpl.
  - split; [auto|]. intros y [->|[]]. lia.
  - destruct (IH (Z.max x a)) as [Hin Hle]. split.
    + destruct Hin as [Heq|Hin]; [|auto].
      rewrite <- Heq. destruct (Z.max_spec x a) as [[_ ->]|[_ ->]]; auto.
    + intros y [->|[->|Hy]].
      * specialize (Hle (Z.max y a) (or_introl eq_refl)). lia.
      * specialize (Hle (Z.max x y) (or_introl eq_refl)). lia.
      * apply Hle. right. exact Hy.
Qed.

Lemma filter_types_length (acts : list action) :
  length (List.filter (is_type "b") acts) = length (block_ids acts) /\
  (length (List.filter (is_type "tx") acts) + length (block_ids acts) = length acts)%nat.
Proof.
  induction acts as [|[id d|id d] acts [IHb IHt]]; simpl; [auto| |]; split; simpl; lia.
Qed.

(** X12. When the actions hold a block document and the bulk write goes
    through, the committer hands all actions to [helpers.bulk] in one
    call, returns, and prints the summary with the highest block number
    among the block documents and the counts of both kinds. *)
Theorem commit_success (w : worker) :
  block_ids (out_actions w) <> [] ->
  exists top : Z,
    commit BulkOk w =
      (inr tt,
       {| out_actions := out_actions w; error_log := error_log w;
          stdout := stdout w ++ [summary_line top (out_actions w)];
          bulk_calls := bulk_calls w ++ [out_actions w] |}) /\
    In top (block_ids (out_actions w)) /\
    forall id : Z, In id (block_ids (out_actions w)) -> id <= top.
Proof.
  intros Hne. unfold commit, summary_line.
  destruct (filter_types_length (out_actions w)) as [Hb Ht].
  pose proof (block_ids_filter (out_actions w)) as Hbf.
  destruct (block_ids (out_actions w)) as [|x ids] eqn:Hids; [destruct Hne; reflexivity|].
  destruct (List.filter (is_type "b") (out_actions w)) as [|a blocks]; [discriminate|].
  rewrite Hbf. destruct (py_max_spec x ids) as (top & Hmax & Hin & Hle).
  exists top. rewrite Hmax. split; [|split; assumption].
  rewrite Hb. replace (length (List.filter (is_type "tx") (out_actions w)))
    with (length (out_actions w) - length (x :: ids))%nat by lia.
  reflexivity.
Qed.

Lemma commit_success_witness :
  block_ids [TxAction (PStr "0xaa") PNone; BlockAction 3 PNone; BlockAction 9 PNone] <> [] /\
  exists top : Z,
    stdout (snd (commit BulkOk
      {| out_actions := [TxAction (PStr "0xaa") PNone; BlockAction 3 PNone; BlockAction 9 PNone];
         error_log := []; stdout := []; bulk_calls := [] |})) =
      [summary_line top [TxAction (PStr "0xaa") PNone; BlockAction 3 PNone; BlockAction 9 PNone]] /\
    In top [3; 9].
Proof.
  split; [discriminate|].
  destruct (commit_success
              {| out_actions := [TxAction (PStr "0xaa") PNone; BlockAction 3 PNone;
                                 BlockAction 9 PNone];
                 error_log := []; stdout := []; bulk_calls := [] |}
              ltac:(discriminate)) as (top & Heq & Hin & _).
  exists top. rewrite Heq. split; [reflexivity|exact Hin].
Defined.

(** * More of the committer *)

(** X13. An exception of [helpers.bulk] other than [BulkIndexError] is not
    caught: the committer raises it, after the one call of the bulk write,
    and logs nothing. *)
Theorem commit_other_exception (w : worker) (e : exn) :
  out_actions w <> [] ->
  (forall msg : string, e <> BulkIndexError msg) ->
  commit (BulkRaises e) w =
    (inl e,
     {| out_actions := out_actions w; error_log := error_log w; stdout := stdout w;
        bulk_calls := bulk_calls w ++ [out_actions w] |}).
Proof.
  intros Hne He. unfold commit.
  destruct (out_actions w) as [|a acts] eqn:Hacts; [destruct Hne; reflexivity|].
  destruct a as [id d|id d]; simpl;
    destruct (List.filter (is_type "b") acts), (List.filter (is_type "tx") acts);
    destruct e; try reflexivity; destruct (He msg); reflexivity.
Qed.

Lemma commit_other_exception_witness :
  [BlockAction 7 PNone] <> [] /\
  (forall msg : string, OtherError "ConnectionTimeout" <> BulkIndexError msg) /\
  fst (commit (BulkRaises (OtherError "ConnectionTimeout"))
         {| out_actions := [BlockAction 7 PNone]; error_log := []; stdout := [];
            bulk_calls := [] |}) = inl (OtherError "ConnectionTimeout").
Proof.
  split; [discriminate|]. split; [discriminate|].
  rewrite (commit_other_exception
             {| out_actions := [BlockAction 7 PNone]; error_log := []; stdout := [];
                bulk_calls := [] |} (OtherError "ConnectionTimeout"));
    [reflexivity|discriminate|discriminate].
Defined.

Lemma commit_ok_returns (w : worker) :
  (block_ids (out_actions w) = [] -> out_actions w = []) ->
  fst (commit BulkOk w) = inr tt.
Proof.
  intros Hblocks. unfold commit.
  pose proof (block_ids_filter (out_actions w)) as Hbf.
  destruct (filter_types_length (out_actions w)) as [Hlen _].
  destruct (List.filter (is_type "b") (out_actions w)) as [|a blocks].
  - rewrite (Hblocks (eq_sym Hbf)). reflexivity.
  - destruct (block_ids (a :: blocks)) as [|x ids] eqn:Hids.
    + rewrite <- Hbf in Hlen. discriminate.
    + destruct (py_max_spec x ids) as (top & -> & _). reflexivity.
Qed.

(** X14. When the store accepts the bulk write, [setup_process] returns
    unless [run] raised, and then the bulk write was not called: printing
    the summary never fails, as the actions of a run that ended well hold
    a block document whenever they hold anything. *)
Theorem setup_process_store_accepts (block_range : list Z) (evs : list event)
    (r : result unit) (w : worker) :
  setup_process block_range evs BulkOk = Some (r, w) ->
  r = inr tt \/
  exists (st : run_state) (e : exn),
    exec process_block evs (init_run SEM_SIZE block_range new_worker) = Some st /\
    raised st = Some e /\ r = inl e /\ bulk_calls w = [].
Proof.
  unfold setup_process. intros H.
  destruct (exec process_block evs _) as [st|] eqn:Hexec; [|discriminate]. simpl in H.
  destruct (run_outcome st) as [[e|[]]|] eqn:Hend; try discriminate; simpl in H.
  - injection H as <- <-. right. exists st, e. split; [reflexivity|].
    apply exec_invariant in Hexec as (_ & Hbulk & _).
    unfold run_outcome in Hend. destruct (raised st) as [e'|]; [|destruct (forallb _ _); discriminate].
    injection Hend as ->. auto.
  - left. apply run_outcome_normal in Hend as [Hraised _].
    pose proof (exec_accounted _ _ _ Hexec Hraised (accounted_init _ _)) as [_ Hblocks].
    pose proof (commit_ok_returns (run_worker st) Hblocks) as Hok.
    destruct (commit BulkOk (run_worker st)). injection H as <- _. exact Hok.
Qed.

Lemma setup_process_store_accepts_witness :
  exists w : worker,
    setup_process [5; 6]
      [Acquire 0%nat; Acquire 1%nat; Complete 1 (Response good_response_6);
       Complete 0 (Raises (TimeoutError ""))] BulkOk = Some (inr tt, w) /\
    error_log w = ["block: 5"] /\
    length (bulk_calls w) = 1%nat.
Proof.
  eexists. split; [vm_compute; reflexivity|].
  match goal with
  | |- error_log ?w = _ /\ _ =>
      destruct (setup_process_store_accepts [5; 6]
                  [Acquire 0%nat; Acquire 1%nat; Complete 1 (Response good_response_6);
                   Complete 0 (Raises (TimeoutError ""))] (inr tt) w
                  ltac:(vm_compute; reflexivity))
        as [_|(st & e & _ & _ & Hr & _)]; [split; reflexivity|discriminate Hr]
  end.
Defined.

(** * More of the input file *)

(** X15. One kept line of the input file that is not a decimal number makes
    the whole block list fail with [ValueError], wherever the line is. *)
Theorem read_block_list_malformed_line (CONTENT : list string) (x : string) :
  In x CONTENT ->
  keep_line x = true ->
  PyLong.from_string x 10 = None ->
  read_block_list CONTENT = inl ValueError.
Proof.
  intros Hin Hkeep Hbad.
  induction CONTENT as [|y rest IH]; [destruct Hin|]. simpl.
  destruct (keep_line y) eqn:Hy.
  - unfold py_int. destruct (PyLong.from_string y 10) as [n|] eqn:Hparse; [|reflexivity].
    simpl. destruct Hin as [->|Hin]; [congruence|]. rewrite (IH Hin). reflexivity.
  - destruct Hin as [->|Hin]; [congruence|]. exact (IH Hin).
Qed.

Lemma read_block_list_malformed_line_witness :
  In ("0x10" +:+ newline) ["12" +:+ newline; "0x10" +:+ newline; "13" +:+ newline] /\
  keep_line ("0x10" +:+ newline) = true /\
  PyLong.from_string ("0x10" +:+ newline) 10 = None /\
  read_block_list ["12" +:+ newline; "0x10" +:+ newline; "13" +:+ newline] = inl ValueError.
Proof.
  split; [simpl; auto|]. split; [reflexivity|]. split; [reflexivity|].
  apply (read_block_list_malformed_line _ ("0x10" +:+ newline));
    [simpl; auto | reflexivity | reflexivity].
Defined.


(** * The request *)

Lemma hex_digit_value (d : Z) :
  0 <= d < 16 ->
  PyLong.digit_value (hex_digit d) = Some d /\
  Ascii.eqb (hex_digit d) PyLong.underscore = false.
Proof.
  intros Hd.
  assert (d = 0 \/ d = 1 \/ d = 2 \/ d = 3 \/ d = 4 \/ d = 5 \/ d = 6 \/ d = 7 \/
          d = 8 \/ d = 9 \/ d = 10 \/ d = 11 \/ d = 12 \/ d = 13 \/ d = 14 \/ d = 15)
    as H by lia.
  repeat (destruct H as [->|H]; [split; reflexivity|]). subst. split; reflexivity.
Qed.

Lemma scan_hex_digits (fuel : nat) :
  forall (n : Z) (acc : string) (a : Z) (k : nat),
    0 <= n < 16 ^ Z.of_nat fuel ->
    PyLong.scan_digits 16 (hex_digits fuel n acc) a k false =
    PyLong.scan_digits 16 acc (a * 16 ^ Z.of_nat (hex_length fuel n) + n)
                       (k + hex_length fuel n) false.
Proof.
  induction fuel as [|fuel IH]; intros n acc a k Hn.
  - simpl in *. assert (n = 0) as -> by lia. f_equal; lia.
  - cbn [hex_digits hex_length]. destruct (Z.eqb_spec n 0) as [->|Hnz].
    + f_equal; simpl; lia.
    + assert (0 <= n / 16 < 16 ^ Z.of_nat fuel) as Hdiv.
      { rewrite Nat2Z.inj_succ, Z.pow_succ_r in Hn by lia.
        split; [apply Z.div_pos; lia|apply Z.div_lt_upper_bound; lia]. }
      rewrite IH by exact Hdiv.
      pose proof (Z.mod_pos_bound n 16 ltac:(lia)) as Hmod.
      destruct (hex_digit_value (n mod 16) Hmod) as [Hval Hus].
      cbn [PyLong.scan_digits]. rewrite Hus, Hval.
      destruct (Z.ltb_spec (n mod 16) 16) as [_|]; [|lia].
      f_equal; [|lia].
      rewrite Nat2Z.inj_succ, Z.pow_succ_r by lia.
      pose proof (Z.div_mod n 16 ltac:(lia)). lia.
Qed.

Lemma hex_digits_head (fuel : nat) :
  forall (n : Z) (acc : string),
    0 < n -> 
    exists c s, hex_digits (S fuel) n acc = String c s /\
                Ascii.eqb c PyLong.underscore = false.
Proof.
  assert (forall fuel n acc c s,
             acc = String c s -> Ascii.eqb c PyLong.underscore = false ->
             exists c' s', hex_digits fuel n acc = String c' s' /\
                           Ascii.eqb c' PyLong.underscore = false) as Hgen.
  { clear. induction fuel as [|fuel IH]; intros n acc c s -> Hc; simpl; [eauto|].
    destruct (n =? 0); [eauto|].
    eapply IH; [reflexivity|].
    apply hex_digit_value, Z.mod_pos_bound. lia. }
  intros n acc Hn. cbn [hex_digits].
  destruct (Z.eqb_spec n 0); [lia|].
  eapply Hgen; [reflexivity|]. apply hex_digit_value, Z.mod_pos_bound. lia.
Qed.

Lemma hex_length_pos (fuel : nat) (n : Z) : 0 < n -> (0 < hex_length (S fuel) n)%nat.
Proof. intros Hn. cbn [hex_length]. destruct (Z.eqb_spec n 0); lia. Qed.

Lemma is_char_head (c a b : ascii) (s : string) :
  PyLong.is_char (String c s) 0 a b = Ascii.eqb c a || Ascii.eqb c b.
Proof. reflexivity. Qed.

Lemma drop_two (a b : ascii) (s : string) : PyLong.drop 2 (String a (String b s)) = s.
Proof.
  unfold PyLong.drop. simpl. rewrite Nat.sub_0_r.
  induction s as [|c s IH]; simpl; [reflexivity|]. rewrite IH. reflexivity.
Qed.

Lemma from_string_hex_digits (n : Z) (negative : bool) :
  0 < n ->
  PyLong.from_string
    ((if negative then "-0x" else "0x") +:+ hex_digits (S (Z.to_nat (Z.log2 n))) n "") 0 =
  Some (if negative then - n else n).
Proof.
  intros Hn. set (fuel := Z.to_nat (Z.log2 n)).
  assert (0 <= n < 16 ^ Z.of_nat (S fuel)) as Hbound.
  { split; [lia|]. unfold fuel. rewrite Nat2Z.inj_succ, Z2Nat.id by apply Z.log2_nonneg.
    pose proof (Z.log2_spec n Hn) as [_ Hlt].
    eapply Z.lt_le_trans; [exact Hlt|].
    apply Z.pow_le_mono_l. lia. }
  destruct (hex_digits_head fuel n "" Hn) as (c & s & Hhead & Hc).
  pose proof (scan_hex_digits (S fuel) n "" 0 0 Hbound) as Hscan.
  pose proof (hex_length_pos fuel n Hn) as Hlen.
  assert (PyLong.from_string ("0x" +:+ hex_digits (S fuel) n "") 0 = Some n) as Hpos.
  { unfold PyLong.from_string.
    change ("0x" +:+ hex_digits (S fuel) n "")
      with (String "0" (String "x" (hex_digits (S fuel) n ""))).
    cbn [PyLong.skip_spaces]. change (PyLong.is_space "0") with false. cbv iota.
    change (PyLong.is_char (String "0" (String "x" (hex_digits (S fuel) n ""))) 0 "0" "0")
      with true.
    change (PyLong.is_char (String "0" (String "x" (hex_digits (S fuel) n ""))) 1 "x" "X")
      with true.
    cbn [negb Z.eqb andb orb]. rewrite drop_two, Hhead.
    change ((16 =? 16)%positive) with true. cbn [andb orb].
    rewrite !is_char_head, Hc. cbn [orb]. cbv iota.
    rewrite ?is_char_head, ?Hc. cbn [orb]. cbv iota.
    rewrite <- Hhead, Hscan. cbn [PyLong.scan_digits].
    destruct (hex_length (S fuel) n); [lia|]. cbn [Nat.add Nat.eqb PyLong.skip_spaces].
    f_equal; try lia. }
  destruct negative; [|exact Hpos].
  unfold PyLong.from_string in *.
  change ("-0x" +:+ hex_digits (S fuel) n "")
    with (String "-" (String "0" (String "x" (hex_digits (S fuel) n "")))).
  change ("0x" +:+ hex_digits (S fuel) n "")
    with (String "0" (String "x" (hex_digits (S fuel) n ""))) in Hpos.
  cbn [PyLong.skip_spaces] in *.
  change (PyLong.is_space "-") with false. change (PyLong.is_space "0") with false in Hpos.
  cbv iota in *.
  destruct (PyLong.is_char (String "0" (String "x" (hex_digits (S fuel) n ""))) 0 "0" "0");
    cbn [negb Z.eqb andb orb] in *;
    repeat match type of Hpos with
           | context [if ?b then _ else _] => destruct b
           | context [match ?x with Some _ => _ | None => _ end] => destruct x as [[[? ?] ?]|]
           | context [match ?x with EmptyString => _ | String _ _ => _ end] => destruct x
           end; try discriminate Hpos; injection Hpos as ->; reflexivity.
Qed.

Lemma py_hex_parses (n : Z) : PyLong.from_string (py_hex n) 0 = Some n.
Proof.
  unfold py_hex. destruct (Z.eqb_spec n 0) as [->|Hnz]; [reflexivity|].
  destruct (Z.ltb_spec n 0) as [Hneg|Hpos].
  - rewrite (from_string_hex_digits (Z.abs n) true) by lia. f_equal. lia.
  - rewrite (from_string_hex_digits (Z.abs n) false) by lia. f_equal. lia.
Qed.

(** X16. The text that [make_request] sends for a block number, [hex(n)], is
    read back as n by the [int(_, 0)] of [process_block], for every [int]
    n, negative ones and zero included. *)
Theorem hex_block_number_round_trip (n : Z) :
  py_int0 (PStr (py_hex n)) = inr n.
Proof. simpl. rewrite py_hex_parses. reflexivity. Qed.

Lemma json_escape_hex_digit (d : Z) :
  0 <= d < 16 -> json_escape (hex_digit d) = String (hex_digit d) EmptyString.
Proof.
  intros Hd.
  assert (d = 0 \/ d = 1 \/ d = 2 \/ d = 3 \/ d = 4 \/ d = 5 \/ d = 6 \/ d = 7 \/
          d = 8 \/ d = 9 \/ d = 10 \/ d = 11 \/ d = 12 \/ d = 13 \/ d = 14 \/ d = 15)
    as H by lia.
  repeat (destruct H as [->|H]; [reflexivity|]). subst. reflexivity.
Qed.

Lemma json_escape_hex_digits (fuel : nat) :
  forall (n : Z) (acc : string),
    json_escape_string (hex_digits fuel n acc) = hex_digits fuel n (json_escape_string acc).
Proof.
  induction fuel as [|fuel IH]; intros n acc; simpl; [reflexivity|].
  destruct (n =? 0); [reflexivity|].
  rewrite IH. simpl. rewrite json_escape_hex_digit by (apply Z.mod_pos_bound; lia).
  reflexivity.
Qed.

Lemma append_assoc (s t u : string) : (s +:+ t) +:+ u = s +:+ (t +:+ u).
Proof.
  induction s as [|c s IH]; [reflexivity|].
  change (String c ((s +:+ t) +:+ u) = String c (s +:+ (t +:+ u))).
  rewrite IH. reflexivity.
Qed.

Lemma json_escape_append (s t : string) :
  json_escape_string (s +:+ t) = json_escape_string s +:+ json_escape_string t.
Proof.
  induction s as [|c s IH]; [reflexivity|].
  change (json_escape c +:+ json_escape_string (s +:+ t)
          = (json_escape c +:+ json_escape_string s) +:+ json_escape_string t).
  rewrite IH, append_assoc. reflexivity.
Qed.

Lemma json_escape_py_hex (n : Z) : json_escape_string (py_hex n) = py_hex n.
Proof.
  unfold py_hex. destruct (n =? 0); [reflexivity|].
  rewrite json_escape_append, json_escape_hex_digits.
  destruct (n <? 0); reflexivity.
Qed.

Lemma append_inj_l (p s t : string) : p +:+ s = p +:+ t -> s = t.
Proof.
  induction p as [|c p IH]; [auto|]. intros H.
  change (String c (p +:+ s) = String c (p +:+ t)) in H.
  injection H as H. exact (IH H).
Qed.

Lemma append_length (s t : string) :
  String.length (s +:+ t) = (String.length s + String.length t)%nat.
Proof.
  induction s as [|c s IH]; [reflexivity|].
  change (S (String.length (s +:+ t)) = S (String.length s + String.length t)).
  rewrite IH. reflexivity.
Qed.

Lemma append_inj_r (s t q : string) : s +:+ q = t +:+ q -> s = t.
Proof.
  revert t. induction s as [|c s IH]; intros [|d t] H; try reflexivity.
  - change (q = String d (t +:+ q)) in H.
    apply (f_equal String.length) in H. cbn [String.length] in H.
    rewrite append_length in H. lia.
  - change (String c (s +:+ q) = q) in H.
    apply (f_equal String.length) in H. cbn [String.length] in H.
    rewrite append_length in H. lia.
  - change (String c (s +:+ q) = String d (t +:+ q)) in H.
    injection H as -> H. f_equal. exact (IH _ H).
Qed.

(** X17. For a block number, [make_request] with [use_hex] returns the
    request whose first parameter is the quoted [hex] of the number,
    nothing escaped, and two block numbers never share a request. *)
Theorem make_request_hex (a b : Z) :
  make_request (inl a) true = inr (request_text (dquote +:+ py_hex a +:+ dquote)) /\
  (make_request (inl a) true = make_request (inl b) true -> a = b).
Proof.
  assert (forall n, make_request (inl n) true
                    = inr (request_text (dquote +:+ py_hex n +:+ dquote))) as Heq.
  { intros n. unfold make_request, json_string. simpl.
    rewrite json_escape_py_hex. reflexivity. }
  split; [apply Heq|].
  rewrite !Heq. intros [= H]. unfold request_text in H.
  repeat (apply append_inj_l in H).
  rewrite <- !append_assoc in H. repeat (apply append_inj_r in H).
  change (py_hex a = py_hex b) in H.
  pose proof (py_hex_parses a) as Ha. rewrite H, py_hex_parses in Ha. congruence.
Qed.

(** * The block list *)

(** X18. Without an input file the block list holds the numbers from
    [start_block] up to [end_block] - 1 in rising order: the end block
    itself is never in it, and the list is empty when the end is not
    above the start. *)
Theorem range_block_list_spec (start_block end_block : Z) :
  exists block_list : list Z,
    range_block_list start_block end_block = inr block_list /\
    length block_list = Z.to_nat (end_block - start_block) /\
    forall (k : nat) (b : Z),
      block_list !! k = Some b <->
      b = start_block + Z.of_nat k /\ b < end_block.
Proof.
  unfold range_block_list, py_range. simpl. eexists. split; [reflexivity|].
  assert (Z.to_nat (range_length start_block end_block 1)
          = Z.to_nat (end_block - start_block)) as Hlen.
  { unfold range_length. simpl.
    destruct (Z.ltb_spec start_block end_block); [|lia].
    rewrite Z.div_1_r. lia. }
  rewrite Hlen. split; [rewrite length_map, length_seq; reflexivity|].
  intros k b. rewrite list_lookup_fmap.
  destruct (seq 0 (Z.to_nat (end_block - start_block)) !! k) as [k'|] eqn:Hk; simpl.
  - apply lookup_seq in Hk as [-> Hlt]. simpl. split.
    + intros [= <-]. lia.
    + intros [-> _]. f_equal. lia.
  - split; [discriminate|]. intros [-> Hlt].
    apply lookup_ge_None in Hk. rewrite length_seq in Hk. lia.
Qed.
